(** * Device registry and BBTK TPad driver: a shallow embedding

    The development follows two modules of the hardware layer:
    - [psychopy/hardware/manager.py]: the [DeviceManager] registry
      ([registerDevice], [addDevicesFromSpec], the [deviceAddMethod]
      decorator and its table [_deviceAddMethods]);
    - [psychopy/hardware/bbtk/tpad.py]: the serial driver [TPad]
      ([setMode], [resetTimer], [dispatchMessages]), the wire grammar
      [messageFormat] and the photodiode handler [TPadPhotodiode].

    Python objects are records, dicts with string or integer keys are
    [gmap]s, the dict keyed by float timestamps is an insertion-ordered
    association list compared with IEEE equality, floats are binary64
    values of [SpecFloat], and exceptions are threaded by a state and
    error monad in which the mutations made before a raise persist. *)

From Stdlib Require Import ZArith List String Ascii Bool Lia.
From Stdlib Require Import Floats.SpecFloat.
From stdpp Require Import base gmap strings pretty list.

Local Open Scope Z_scope.
Local Open Scope string_scope.
Local Open Scope list_scope.

(** ** Python values, exceptions and effects *)

(** The primitive values a device spec carries. *)
Inductive Value :=
| VStr (s : string)
| VInt (z : Z).

#[global] Instance Value_eq_dec : EqDecision Value.
Proof. solve_decision. Defined.

(** [str(v)], as an f-string field formats it. *)
Definition py_str (v : Value) : string :=
  match v with
  | VStr s => s
  | VInt z => pretty z
  end.

(** The exceptions the two modules can raise or let through. *)
Inductive exn :=
| AttributeError (attr : string)
| KeyError (key : Value)
| ValueError
| TypeError
| NotImplementedError
| SerialException.

#[global] Instance exn_eq_dec : EqDecision exn.
Proof. solve_decision. Defined.

(** How a call ends: it returns a value or raises. *)
Inductive outcome (A : Type) :=
| Return (a : A)
| Raise (e : exn).
Arguments Return {A} a.
Arguments Raise {A} e.

(** A method body over an object of state [S]: what it did to the object is
    kept also when it raises. *)
Definition M (S A : Type) : Type := S -> S * outcome A.

Definition ret {S A} (a : A) : M S A := fun s => (s, Return a).

Definition raise {S A} (e : exn) : M S A := fun s => (s, Raise e).

Definition bind {S A B} (m : M S A) (k : A -> M S B) : M S B :=
  fun s =>
    match m s with
    | (s', Return a) => k a s'
    | (s', Raise e) => (s', Raise e)
    end.

Definition lift {S A} (o : outcome A) : M S A := fun s => (s, o).

Definition gets {S A} (f : S -> A) : M S A := fun s => (s, Return (f s)).

Definition modify {S} (f : S -> S) : M S unit := fun s => (f s, Return tt).

(** [try: body except E: pass] for the exceptions selected by [catches]. *)
Definition try_pass {S} (catches : exn -> bool) (body : M S unit) : M S unit :=
  fun s =>
    match body s with
    | (s', Return _) => (s', Return tt)
    | (s', Raise e) => if catches e then (s', Return tt) else (s', Raise e)
    end.

Declare Scope py_scope.
Delimit Scope py_scope with py.
Notation "x <~ m ;; k" := (bind m (fun x => k))
  (at level 100, m at next level, right associativity) : py_scope.
Notation "m ;;; k" := (bind m (fun _ => k))
  (at level 100, right associativity) : py_scope.
Local Open Scope py_scope.

(** [for x in xs: body x], stopping at the first raise. *)
Fixpoint for_each {S A} (body : A -> M S unit) (xs : list A) : M S unit :=
  match xs with
  | [] => ret tt
  | x :: rest => body x ;;; for_each body rest
  end.

(** ** manager.py *)

Module Manager.

(** One entry of a device spec: a dict with string keys. *)
Abbreviation Item := (gmap string Value).

(** [dict.pop(key)]: the value and the dict without the key, or KeyError. *)
Definition pop (key : string) (item : Item) : outcome (Value * Item) :=
  match item !! key with
  | Some v => Return (v, delete key item)
  | None => Raise (KeyError (VStr key))
  end.

(** Binding of a call [f(selfArg, **kwargs)] to [def f(self, p1, ..., pn)]:
    [required] are the parameters without a default, [optional] those with
    one.  A keyword that names no parameter, or a required parameter left
    without a value, is a TypeError. *)
Definition bind_call (required optional : list string) (kwargs : Item) : outcome unit :=
  if forallb (fun k => bool_decide (k ∈ required ++ optional)) (elements (dom kwargs))
  then if forallb (fun p => bool_decide (is_Some (kwargs !! p))) required
       then Return tt
       else Raise TypeError
  else Raise TypeError.

Section DeviceRegistry.

(** Device objects and the attribute dictionaries they carry.  The device
    classes live outside this module; [isSameDevice] is their method, taken
    here as it comes. *)
Context {Device Params : Type}.
Variable __dict__ : Device -> Params.
Variable isSameDevice : Device -> Params -> bool.

(** [class DeviceManager(list)]: the list items, and the instance attribute
    [devices], which no statement of the class assigns ([None] stands for
    the attribute being absent, as on [mgr = DeviceManager()]). *)
Record DeviceManager := {
  items : list Device;
  devices : option (list Value)
}.

Definition mgr : DeviceManager := {| items := []; devices := None |}.

Definition append (self : DeviceManager) (device : Device) : DeviceManager :=
  {| items := items self ++ [device]; devices := devices self |}.

(** The [for obj in self] loop of [registerDevice]: [true] when some
    [obj.isSameDevice(params=device.__dict__)] holds and the method returns
    from inside the loop. *)
Fixpoint registerDevice_scan (objs : list Device) (device : Device) : bool :=
  match objs with
  | [] => false
  | obj :: rest =>
      if isSameDevice obj (__dict__ device) then true
      else registerDevice_scan rest device
  end.

Definition registerDevice (self : DeviceManager) (device : Device) : DeviceManager :=
  if registerDevice_scan (items self) device then self
  else append self device.

(** A function stored in [_deviceAddMethods]: called as
    [fcn(name, **item)], it may act on the manager and may raise. *)
Definition AddMethod : Type := Value -> Item -> M DeviceManager unit.

(** The decorator [deviceAddMethod(key)] applied to [fcn]:
    [_deviceAddMethods[key] = fcn]. *)
Definition deviceAddMethod (key : string) (fcn : AddMethod)
    (_deviceAddMethods : gmap string AddMethod) : gmap string AddMethod :=
  <[key := fcn]> _deviceAddMethods.

(** [def addTPad(self, name, port)], as the table calls it: the first
    positional argument binds [self], the keywords must bind [name] and
    [port]; the body raises NotImplementedError. *)
Definition addTPad : AddMethod :=
  fun _ kwargs =>
    lift (bind_call ["name"; "port"] [] kwargs) ;;;
    raise NotImplementedError.

(** Evaluating [self.devices]. *)
Definition getattr_devices : M DeviceManager (list Value) :=
  fun self =>
    match devices self with
    | Some names => (self, Return names)
    | None => (self, Raise (AttributeError "devices"))
    end.

(** The candidate names of an unnamed entry: the type itself, then
    [f"{ioType}{i}"] for i = 1, 2, ... *)
Definition candidate (ioType : Value) (i : Z) : Value :=
  if decide (i = 0) then ioType else VStr (py_str ioType +:+ pretty i).

(** [while name in self.devices: i += 1; name = f"{ioType}{i}"], entered
    with the current [i] (and [name = candidate ioType i]).  [fuel] bounds
    the iterations; [name_loop_fresh] shows that the bound given by
    [addDevicesFromSpec_item] is never reached. *)
Fixpoint name_loop (fuel : nat) (ioType : Value) (names : list Value) (i : Z) : Value :=
  let name := candidate ioType i in
  if bool_decide (name ∈ names) then
    match fuel with
    | O => name
    | S fuel' => name_loop fuel' ioType names (i + 1)
    end
  else name.

(** The body of the [for item in spec] loop. *)
Definition addDevicesFromSpec_item (_deviceAddMethods : gmap string AddMethod)
    (item : Item) : M DeviceManager unit :=
  popped <~ lift (pop "type" item) ;;
  let '(ioType, item) := popped in
  named <~
      (if bool_decide (is_Some (item !! "name")) then
         lift (pop "name" item)
       else
         names <~ getattr_devices ;;
         ret (name_loop (S (length names)) ioType names 0, item)) ;;
  let '(name, item) := named in
  match ioType with
  | VStr key =>
      match _deviceAddMethods !! key with
      | Some fcn => fcn name item
      | None => raise (KeyError ioType)
      end
  | VInt _ => raise (KeyError ioType)
  end.

Definition addDevicesFromSpec (_deviceAddMethods : gmap string AddMethod)
    (spec : list Item) : M DeviceManager unit :=
  for_each (addDevicesFromSpec_item _deviceAddMethods) spec.

(** What the body of an add method does once the call has bound its
    parameters: the device classes it constructs live outside this module. *)
Variable method_body : string -> Value -> Item -> M DeviceManager unit.

(** A method of the class as the table calls it, [fcn(name, **item)]: the
    first positional argument binds [self], the keywords are bound to the
    other parameters, then the body runs. *)
Definition add_method (fname : string) (required optional : list string) : AddMethod :=
  fun self kwargs =>
    lift (bind_call required optional kwargs) ;;;
    method_body fname self kwargs.

(** [def addKeyboard(self, backend="iohub", device=-1)] *)
Definition addKeyboard : AddMethod :=
  add_method "addKeyboard" [] ["backend"; "device"].

(** [def addMouse(self, name)] *)
Definition addMouse : AddMethod :=
  add_method "addMouse" ["name"] [].

(** [def addMicrophone(self, name, device, sampleRate=44100, channels=1)] *)
Definition addMicrophone : AddMethod :=
  add_method "addMicrophone" ["name"; "device"] ["sampleRate"; "channels"].

(** [def addCamera(self, name, device=0, backend=u'ffpyplayer')] *)
Definition addCamera : AddMethod :=
  add_method "addCamera" ["name"] ["device"; "backend"].

(** [def addSerialDevice(self, name, port, baudrate=9600, byteSize=8,
    stopBits=1, parity="N")] *)
Definition addSerialDevice : AddMethod :=
  add_method "addSerialDevice" ["name"; "port"]
    ["baudrate"; "byteSize"; "stopBits"; "parity"].

(** [_deviceAddMethods] once the class body has run its six decorators, in
    the order of the source. *)
Definition class_deviceAddMethods : gmap string AddMethod :=
  deviceAddMethod "TPad" addTPad
    (deviceAddMethod "Serial" addSerialDevice
       (deviceAddMethod "Camera" addCamera
          (deviceAddMethod "Microphone" addMicrophone
             (deviceAddMethod "Mouse" addMouse
                (deviceAddMethod "Keyboard" addKeyboard ∅))))).

End DeviceRegistry.

Arguments DeviceManager : clear implicits.
Arguments AddMethod : clear implicits.

(** [getSerialDevices]: [spec[info.name] = info] for each port that
    [list_ports.comports()] lists, in order. *)
Definition getSerialDevices {Info : Type} (name : Info -> string)
    (comports : list Info) : gmap string Info :=
  fold_left (fun spec info => <[name info := info]> spec) comports ∅.

End Manager.

(** ** photodiode.py *)

Module photodiode.

(** The value a response carries: the state converted to a bool, or the
    state string left as it was. *)
Inductive StateValue :=
| SBool (b : bool)
| SStr (s : string).

(** Modelled from the spec: [PhotodiodeResponse] (photodiode.py is not part
    of the sources): a decoded event, (timestamp in seconds, value, optional
    numeric threshold). *)
Record PhotodiodeResponse := {
  t : spec_float;
  value : StateValue;
  threshold : option Z
}.

(** Modelled from the spec: [BasePhotodiode] (photodiode.py is not part of
    the sources): a handler owns a threshold, mirrored locally, and an
    ordered log of the responses it received, never removed from. *)
Record BasePhotodiode := {
  _threshold : option Z;
  messages : list PhotodiodeResponse
}.

(** Modelled from the spec: [BasePhotodiode.__init__]: no threshold set yet,
    empty log. *)
Definition __init__ : BasePhotodiode :=
  {| _threshold := None; messages := [] |}.

(** Modelled from the spec: [BasePhotodiode.getThreshold] returns the locally
    mirrored threshold. *)
Definition getThreshold (self : BasePhotodiode) : option Z := _threshold self.

(** Modelled from the spec: [BasePhotodiode.receiveMessage(response)] appends
    the response to the handler's own ordered log. *)
Definition receiveMessage (self : BasePhotodiode) (message : PhotodiodeResponse)
    : BasePhotodiode :=
  {| _threshold := _threshold self; messages := messages self ++ [message] |}.

End photodiode.

(** ** bbtk/tpad.py *)

Module tpad.

Import photodiode.

(** *** Floats: IEEE 754 binary64, round to nearest even *)

Definition prec : Z := 53.
Definition emax : Z := 1024.

(** The float nearest to an integer. *)
Definition float_of_Z (z : Z) : spec_float := binary_normalize prec emax z 0 false.

(** [x / y] and [x + y] on floats, and [x == y]. *)
Definition fdiv (x y : spec_float) : spec_float := SFdiv prec emax x y.
Definition fadd (x y : spec_float) : spec_float := SFadd prec emax x y.
Definition feq (x y : spec_float) : bool := SFeqb x y.

(** *** The conversions [int(s)] and [float(s)] *)

(** A line is a string of one-byte characters; among these [\d], [int] and
    [float] take the ASCII digits and no other character. *)
Definition is_digit (c : ascii) : bool :=
  ((48 <=? N_of_ascii c) && (N_of_ascii c <=? 57))%N.

Definition digit_value (c : ascii) : Z := Z.of_N (N_of_ascii c) - 48.

Fixpoint all_digits (s : string) : bool :=
  match s with
  | EmptyString => true
  | String c s' => is_digit c && all_digits s'
  end.

Fixpoint digits_value (acc : Z) (s : string) : Z :=
  match s with
  | EmptyString => acc
  | String c s' => digits_value (10 * acc + digit_value c) s'
  end.

(** [int(s)] on the strings a group of the grammar can hold (one character
    of a class, or a run of digits): a non-empty run of decimal digits is its
    value, anything else a ValueError. *)
Definition py_int (s : string) : outcome Z :=
  match s with
  | EmptyString => Raise ValueError
  | _ => if all_digits s then Return (digits_value 0 s) else Raise ValueError
  end.

(** [float(s)] on the same strings: the nearest binary64 value of the
    integer, and ValueError for the empty string. *)
Definition py_float (s : string) : outcome spec_float :=
  match py_int s with
  | Return z => Return (float_of_Z z)
  | Raise e => Raise e
  end.

(** *** The wire grammar *)

(** possible values for self.channel *)
Definition channelCodes : list (string * string) :=
  [("A", "Buttons"); ("C", "Optos"); ("M", "Voice key"); ("T", "TTL in")].

(** possible values for self.state *)
Definition stateCodes : list (string * string) :=
  [("P", "Pressed/On"); ("R", "Released/Off")].

(** possible values for self.button *)
Definition buttonCodes : list (string * string) :=
  [("1", "Button 1"); ("2", "Button 2"); ("3", "Button 2"); ("4", "Button 2");
   ("5", "Button 2"); ("6", "Button 2"); ("7", "Button 2"); ("8", "Button 2");
   ("9", "Button 2"); ("0", "Button 2"); ("[", "Opto 1"); ("]", "Opto 2")].

(** [d[key]] read as [d.get(key)]. *)
Fixpoint code_lookup (key : string) (d : list (string * string)) : option string :=
  match d with
  | [] => None
  | (k, v) :: d' => if String.eqb k key then Some v else code_lookup key d'
  end.

(** The fragment of regular expressions [messageFormat] is written in: a
    character class is a set of literal characters or [\d]; a pattern is a
    sequence of literal characters, one-character capture groups [([...])]
    and greedy starred capture groups [(\d* )]. *)
Inductive charset :=
| Chars (cs : string)
| Digit.

Inductive atom :=
| Lit (c : ascii)
| Group (k : charset)
| GroupStar (k : charset).

Definition pattern : Type := list atom.

Fixpoint mem_ascii (c : ascii) (cs : string) : bool :=
  match cs with
  | EmptyString => false
  | String a cs' => Ascii.eqb a c || mem_ascii c cs'
  end.

Definition in_charset (k : charset) (c : ascii) : bool :=
  match k with
  | Chars cs => mem_ascii c cs
  | Digit => is_digit c
  end.

(** [re.match(p, s)]: the match is anchored at the start of [s] only; the
    result is the list of captured groups, [None] when there is no match.
    A starred group takes as many characters as it can and gives them back
    one at a time while the rest of the pattern fails. *)
Fixpoint re_match (p : pattern) (s : string) {struct p} : option (list string) :=
  match p with
  | [] => Some []
  | Lit c :: p' =>
      match s with
      | String a s' => if Ascii.eqb a c then re_match p' s' else None
      | EmptyString => None
      end
  | Group k :: p' =>
      match s with
      | String a s' =>
          if in_charset k a
          then option_map (cons (String a EmptyString)) (re_match p' s')
          else None
      | EmptyString => None
      end
  | GroupStar k :: p' =>
      (fix star (s : string) : option (list string) :=
         let stop := option_map (cons EmptyString) (re_match p' s) in
         match s with
         | String a s' =>
             if in_charset k a then
               match star s' with
               | Some (g :: gs) => Some (String a g :: gs)
               | _ => stop
               end
             else stop
         | EmptyString => stop
         end) s
  end.

(** ["".join(re.escape(key) for key in d)] inside [[...]]: the escapes make
    every key character a literal member of the class. *)
Definition class_of_keys (d : list (string * string)) : charset :=
  Chars (String.concat "" (map fst d)).

(** [messageFormat], that is
    [([ACMT]) ([PR]) ([1234567890\[\]]) (\d* )]. *)
Definition messageFormat : pattern :=
  [Group (class_of_keys channelCodes); Lit " ";
   Group (class_of_keys stateCodes); Lit " ";
   Group (class_of_keys buttonCodes); Lit " ";
   GroupStar Digit].

(** [re.match(messageFormat, message).groups()]; on no match [None.groups]
    is an AttributeError. *)
Definition splitTPadMessage (message : string)
    : outcome (string * string * string * string) :=
  match re_match messageFormat message with
  | Some [channel; state; button; time] => Return (channel, state, button, time)
  | _ => Raise (AttributeError "groups")
  end.

(** *** Sub-device handlers *)

(** The tuple [parts = (channel, state, button, time)] of [dispatchMessages]. *)
Definition Parts : Type := string * string * Z * spec_float.

Record TPadPhotodiode := {
  base : BasePhotodiode;
  number : Z
}.

(** [TPadPhotodiode.__init__(port, number)]. *)
Definition TPadPhotodiode__init__ (number : Z) : TPadPhotodiode :=
  {| base := photodiode.__init__; number := number |}.

(** [TPadPhotodiode.parseMessage(message)] on the tuple the driver passes
    (the branch that first splits a string is not taken then). *)
Definition parseMessage (self : TPadPhotodiode) (message : Parts) : PhotodiodeResponse :=
  let '(channel, state, button, time) := message in
  let state :=
    if String.eqb state "P" then SBool true
    else if String.eqb state "R" then SBool false
    else SStr state in
  {| t := time; value := state; threshold := getThreshold (base self) |}.

Definition receive (self : TPadPhotodiode) (message : PhotodiodeResponse) : TPadPhotodiode :=
  {| base := receiveMessage (base self) message; number := number self |}.

(** [class TPadButton] and [class TPadVoicekey] define [__init__] only. *)
Inductive TPadButton := TPadButton__init__ (number : Z).
Inductive TPadVoicekey := TPadVoicekey__init__ (number : Z).

(** *** The driver *)

(** What the driver asks of its collaborators: the serial device it extends
    ([sendMessage], [pause], [getResponse]) and the clock. *)
Inductive Call :=
| call_sendMessage (message : string)
| call_pause
| call_getResponse (length : option Z) (timeout : option spec_float)
| call_getTime.

(** The collaborators answer each call as a function of the calls made so
    far: a send or a pause returns or raises, a read returns lines or raises,
    the clock returns the host time. *)
Record Env := {
  env_sendMessage : list Call -> string -> outcome unit;
  env_pause : list Call -> outcome unit;
  env_getResponse : list Call -> option Z -> option spec_float -> outcome (list string);
  env_getTime : list Call -> spec_float
}.

(** The [TPad] object: the calls it has made, the dict of raw lines by
    timestamp (in insertion order), the three dicts of handlers and the host
    time of the last timer reset. *)
Record TPad := {
  calls : list Call;
  messages : list (spec_float * string);
  photodiodes : gmap Z TPadPhotodiode;
  buttons : gmap Z TPadButton;
  voicekeys : gmap Z TPadVoicekey;
  _lastTimerReset : option spec_float
}.

Definition set_calls (f : list Call -> list Call) (self : TPad) : TPad :=
  {| calls := f (calls self); messages := messages self;
     photodiodes := photodiodes self; buttons := buttons self;
     voicekeys := voicekeys self; _lastTimerReset := _lastTimerReset self |}.

Definition set_messages (f : list (spec_float * string) -> list (spec_float * string))
    (self : TPad) : TPad :=
  {| calls := calls self; messages := f (messages self);
     photodiodes := photodiodes self; buttons := buttons self;
     voicekeys := voicekeys self; _lastTimerReset := _lastTimerReset self |}.

Definition set_photodiodes (f : gmap Z TPadPhotodiode -> gmap Z TPadPhotodiode)
    (self : TPad) : TPad :=
  {| calls := calls self; messages := messages self;
     photodiodes := f (photodiodes self); buttons := buttons self;
     voicekeys := voicekeys self; _lastTimerReset := _lastTimerReset self |}.

Definition set_lastTimerReset (v : option spec_float) (self : TPad) : TPad :=
  {| calls := calls self; messages := messages self;
     photodiodes := photodiodes self; buttons := buttons self;
     voicekeys := voicekeys self; _lastTimerReset := v |}.

(** [d[key] = value] on a dict keyed by floats: a key equal ([==]) to [key]
    keeps its place and gets the new value, otherwise the pair goes last. *)
Fixpoint dict_set (key : spec_float) (v : string) (d : list (spec_float * string))
    : list (spec_float * string) :=
  match d with
  | [] => [(key, v)]
  | (k, v') :: d' => if feq k key then (k, v) :: d' else (k, v') :: dict_set key v d'
  end.

(** [d.get(key)]. *)
Fixpoint dict_get (key : spec_float) (d : list (spec_float * string)) : option string :=
  match d with
  | [] => None
  | (k, v) :: d' => if feq k key then Some v else dict_get key d'
  end.

(** The number of entries whose key equals [key]. *)
Definition key_count (key : spec_float) (d : list (spec_float * string)) : nat :=
  length (filter (fun kv => feq (fst kv) key = true) d).

Section Driver.

Variable env : Env.

Definition sendMessage (message : string) : M TPad unit :=
  fun self =>
    (set_calls (fun h => h ++ [call_sendMessage message]) self,
     env_sendMessage env (calls self) message).

Definition pause : M TPad unit :=
  fun self =>
    (set_calls (fun h => h ++ [call_pause]) self, env_pause env (calls self)).

Definition getResponse (length : option Z) (timeout : option spec_float)
    : M TPad (list string) :=
  fun self =>
    (set_calls (fun h => h ++ [call_getResponse length timeout]) self,
     env_getResponse env (calls self) length timeout).

Definition getTime : M TPad spec_float :=
  fun self =>
    (set_calls (fun h => h ++ [call_getTime]) self,
     Return (env_getTime env (calls self))).

Definition is_SerialException (e : exn) : bool :=
  bool_decide (e = SerialException).

Definition setMode (mode : Z) : M TPad unit :=
  (* exit out of whatever mode we're in (effectively set it to 0) *)
  try_pass is_SerialException (sendMessage "X" ;;; pause) ;;;
  (* set mode *)
  sendMessage ("MOD" +:+ pretty mode) ;;;
  pause ;;;
  (* clear messages *)
  getResponse None None ;;;
  ret tt.

Definition resetTimer : M TPad unit :=
  setMode 0 ;;;
  sendMessage "REST" ;;;
  pause ;;;
  now <~ getTime ;;
  modify (set_lastTimerReset (Some now)) ;;;
  setMode 3.

(** The handler a line is dispatched to, named by its dict and key. *)
Inductive Node :=
| ButtonNode (key : Z)
| PhotodiodeNode (key : Z)
| VoicekeyNode (key : Z).

(** [node.parseMessage(parts)] then [node.receiveMessage(message)]: only
    the photodiode class has these attributes. *)
Definition dispatch (node : Node) (parts : Parts) : M TPad unit :=
  match node with
  | PhotodiodeNode key =>
      fun self =>
        match photodiodes self !! key with
        | Some pd =>
            let message := parseMessage pd parts in
            (set_photodiodes <[key := receive pd message]> self, Return tt)
        | None => (self, Raise (KeyError (VInt key)))
        end
  | ButtonNode _ | VoicekeyNode _ => raise (AttributeError "parseMessage")
  end.

(** The block "choose object to dispatch to" of [dispatchMessages]: three
    tests in sequence, each overwriting [node] when it holds. *)
Definition choose_node (self : TPad) (channel : string) (button : Z) : option Node :=
  let node : option Node := None in
  let node :=
    if String.eqb channel "A" && bool_decide (is_Some (buttons self !! button))
    then Some (ButtonNode button) else node in
  let node :=
    if String.eqb channel "C" && bool_decide (is_Some (photodiodes self !! button))
    then Some (PhotodiodeNode button) else node in
  let node :=
    if String.eqb channel "M" && bool_decide (is_Some (voicekeys self !! button))
    then Some (VoicekeyNode button) else node in
  node.

(** The body of the [for line in data] loop of [dispatchMessages]. *)
Definition dispatchMessages_line (line : string) : M TPad unit :=
  match re_match messageFormat line with
  | None => ret tt
  | Some _ =>
      (* if line fits format, split into attributes *)
      groups <~ lift (splitTPadMessage line) ;;
      let '(channel, state, button, time) := groups in
      (* integerise button *)
      button <~ lift (py_int button) ;;
      (* get time in s using defaultClock units *)
      ftime <~ lift (py_float time) ;;
      epoch <~ gets _lastTimerReset ;;
      time <~ match epoch with
              | Some epoch => ret (fadd (fdiv ftime (float_of_Z 1000)) epoch)
              | None => raise TypeError
              end ;;
      let parts : Parts := (channel, state, button, time) in
      (* store message *)
      modify (set_messages (dict_set time line)) ;;;
      (* choose object to dispatch to *)
      node <~ gets (fun self => choose_node self channel button) ;;
      (* dispatch *)
      match node with
      | Some node => dispatch node parts
      | None => ret tt
      end
  end.

Definition dispatchMessages (timeout : spec_float) : M TPad unit :=
  (* get data from box *)
  data <~ getResponse (Some 2) (Some timeout) ;;
  pause ;;;
  (* parse lines *)
  for_each dispatchMessages_line data.

(** [TPad.__init__] once the port is known and the serial device is open
    with the calls [history] behind it: the attributes are set, then the
    timer is reset. *)
Definition TPad__init__ (history : list Call) : TPad * outcome unit :=
  resetTimer
    {| calls := history;
       messages := [];
       photodiodes := list_to_map (map (fun i => (i + 1, TPadPhotodiode__init__ (i + 1))) (seqZ 0 2));
       buttons := list_to_map (map (fun i => (i + 1, TPadButton__init__ (i + 1))) (seqZ 0 10));
       voicekeys := list_to_map (map (fun i => (i + 1, TPadVoicekey__init__ (i + 1))) (seqZ 0 1));
       _lastTimerReset := None |}.

(** [bool(resp)] on what a read returns: a reply is true when it is not
    empty. *)
Definition truthy (resp : list string) : bool :=
  match resp with
  | [] => false
  | _ :: _ => true
  end.

Definition isAwake : M TPad bool :=
  setMode 0 ;;;
  (* call help and get response *)
  sendMessage "HELP" ;;;
  resp <~ getResponse None None ;;
  (* set to mode 3 *)
  setMode 3 ;;;
  ret (truthy resp).

Definition calibratePhotodiode (level : Z) : M TPad unit :=
  (* set to mode 0 *)
  setMode 0 ;;;
  sendMessage ("AAO1 " +:+ pretty level) ;;;
  sendMessage ("AAO2 " +:+ pretty level) ;;;
  getResponse None None ;;;
  (* set to mode 3 *)
  setMode 3.

End Driver.

(** *** Port detection *)

(** [s[n:]] and [s[:n]] for [n >= 0]. *)
Fixpoint str_drop (n : nat) (s : string) : string :=
  match n, s with
  | O, _ => s
  | S n', String _ s' => str_drop n' s'
  | S _, EmptyString => EmptyString
  end.

Fixpoint str_take (n : nat) (s : string) : string :=
  match n, s with
  | O, _ => EmptyString
  | S n', String a s' => String a (str_take n' s')
  | S _, EmptyString => EmptyString
  end.

(** [s[start:stop]] for indices that are not negative. *)
Definition str_slice (s : string) (start stop : nat) : string :=
  str_take (stop - start) (str_drop start s).

(** The first position, counted from [i], at which [sub] starts in [s]. *)
Fixpoint find_from (sub s : string) (i : nat) : option nat :=
  if String.prefix sub s then Some i
  else match s with
       | EmptyString => None
       | String _ s' => find_from sub s' (S i)
       end.

(** [s.find(sub, start)]: the lowest index from [start] on at which [sub]
    occurs, and -1 when there is none. *)
Definition str_find (sub s : string) (start : nat) : Z :=
  if (String.length s <? start)%nat then -1
  else match find_from sub (str_drop start s) start with
       | Some i => Z.of_nat i
       | None => -1
       end.

(** The one-byte characters that [str.isnumeric] accepts: the ASCII digits,
    the superscripts 2, 3 and 1, and the fractions 1/4, 1/2 and 3/4. *)
Definition is_numeric_char (c : ascii) : bool :=
  is_digit c ||
  bool_decide (N_of_ascii c ∈ [178; 179; 185; 188; 189; 190]%N).

Fixpoint all_numeric (s : string) : bool :=
  match s with
  | EmptyString => true
  | String c s' => is_numeric_char c && all_numeric s'
  end.

(** [s.isnumeric()]: every character is numeric and there is at least one. *)
Definition isnumeric (s : string) : bool :=
  match s with
  | EmptyString => false
  | _ => all_numeric s
  end.

(** How [_detectComPort] ends: with a port string, with the ConnectionError
    it prepares, or with an exception raised by a lookup. *)
Inductive Detection :=
| Port (port : string)
| ConnectionError
| Raised (e : exn).

(** The loop "find which port has FTDI": every profile is asked for its
    manufacturer, and each FTDI profile replaces the one found before. *)
Fixpoint find_FTDI (profiles : list (gmap string string))
    (profile : option (gmap string string)) : outcome (option (gmap string string)) :=
  match profiles with
  | [] => Return profile
  | prf :: rest =>
      match prf !! "Manufacturer Name" with
      | None => Raise (KeyError (VStr "Manufacturer Name"))
      | Some manufacturer =>
          find_FTDI rest (if String.eqb manufacturer "FTDI" then Some prf else profile)
      end
  end.

(** [_detectComPort], given the device profiles that
    [st.systemProfilerWindowsOS(connected=True, classname="Ports")] returns. *)
Definition _detectComPort (profiles : list (gmap string string)) : Detection :=
  (* find which port has FTDI *)
  match find_FTDI profiles None with
  | Raise e => Raised e
  | Return None => ConnectionError
  | Return (Some profile) =>
      (* find "COM" in profile description *)
      match profile !! "Device Description" with
      | None => Raised (KeyError (VStr "Device Description"))
      | Some desc =>
          let start := str_find "COM" desc 0 + 3 in
          let stop := str_find ")" desc (Z.to_nat start) in
          (* if there's no reference to a COM port, fail *)
          if bool_decide (start = -1 \/ stop = -1) then ConnectionError
          else
            (* get COM port number *)
            let num := str_slice desc (Z.to_nat start) (Z.to_nat stop) in
            (* if COM port number doesn't look numeric, fail *)
            if isnumeric num then Port ("COM" +:+ num) else ConnectionError
      end
  end.

(** The timestamp of a line of raw time [rawTime] (in ms) after a reset at
    host time [epoch]: [rawTime / 1000 + epoch]. *)
Definition timestamp (rawTime : Z) (epoch : spec_float) : spec_float :=
  fadd (fdiv (float_of_Z rawTime) (float_of_Z 1000)) epoch.

(** The default [timeout=1/30] of [dispatchMessages]. *)
Definition default_timeout : spec_float := fdiv (float_of_Z 1) (float_of_Z 30).

End tpad.

(** ** Vocabulary of the statements *)

(** The identities of the registered devices, for an identity [ident] drawn
    from a device's parameters. *)
Definition identities {Device Params K : Type} (__dict__ : Device -> Params)
    (ident : Params -> K) (self : Manager.DeviceManager Device) : list K :=
  map (fun obj => ident (__dict__ obj)) (Manager.items self).

(** The type of an entry has no constructor in the table. *)
Definition unregistered {Device : Type}
    (methods : gmap string (Manager.AddMethod Device)) (ioType : Value) : Prop :=
  match ioType with
  | VStr key => methods !! key = None
  | VInt _ => True
  end.

(** The table with the TPad registration of the class body. *)
Definition TPad_table : gmap string (Manager.AddMethod unit) :=
  Manager.deviceAddMethod "TPad" Manager.addTPad ∅.

(** Two floats are [==] exactly when they are the same number: the same
    value other than NaN, or two zeros of any sign. *)
Definition same_number (x y : spec_float) : Prop :=
  (x = y /\ x <> S754_nan) \/ (exists sx sy, x = S754_zero sx /\ y = S754_zero sy).

(** The float 0.5, that is 2^52 * 2^-53. *)
Definition one_half : spec_float := S754_finite false (2 ^ 52) (-53).

(** A string does not go on with a digit: it is empty or starts with some
    other character. *)
Definition no_digit_ahead (rest : string) : Prop :=
  match rest with
  | EmptyString => True
  | String a _ => tpad.is_digit a = false
  end.

(** A line of the four fields separated by single spaces. *)
Definition spaced_line (channel state button : ascii) (time rest : string) : string :=
  String channel (String " " (String state (String " " (String button
    (String " " (time +:+ rest)))))).

(** No call on the collaborators raises. *)
Definition reliable (env : tpad.Env) : Prop :=
  (forall h message, tpad.env_sendMessage env h message = Return tt) /\
  (forall h, tpad.env_pause env h = Return tt) /\
  (forall h length timeout,
     exists data, tpad.env_getResponse env h length timeout = Return data).

(** The history holds at most one entry per timestamp (NaN, which equals
    nothing, is not a timestamp). *)
Definition well_keyed (d : list (spec_float * string)) : Prop :=
  forall ts, tpad.feq ts ts = true -> (tpad.key_count ts d <= 1)%nat.

(** The timestamp under which [dispatchMessages] stores a line after a reset
    at [epoch]: the grammar matches the line and its code and time convert.
    A line that is not stored has none. *)
Definition line_timestamp (epoch : spec_float) (line : string) : option spec_float :=
  match tpad.re_match tpad.messageFormat line with
  | Some [_; _; button; time] =>
      match tpad.py_int button, tpad.py_float time with
      | Return _, Return ftime =>
          Some (tpad.fadd (tpad.fdiv ftime (tpad.float_of_Z 1000)) epoch)
      | _, _ => None
      end
  | _ => None
  end.

(** What processing a line does to the history, whether the processing
    returns or raises. *)
Definition history_step (epoch : spec_float) (d : list (spec_float * string))
    (line : string) : list (spec_float * string) :=
  match line_timestamp epoch line with
  | Some ts => tpad.dict_set ts line d
  | None => d
  end.

(** The driver after the loop body of [dispatchMessages] has run on each of
    [lines] in turn, whether it returned or raised: a raise ends the call, and
    the driver it leaves is the one the next call goes on from. *)
Definition processed (lines : list string) (self : tpad.TPad) : tpad.TPad :=
  fold_left (fun s line => fst (tpad.dispatchMessages_line line s)) lines self.

(** An environment in which every send and pause returns, a multi-line read
    returns [data], any other read returns nothing, and the clock shows
    [now]; and the driver constructed in it. *)
Definition example_env (data : list string) (now : spec_float) : tpad.Env :=
  {| tpad.env_sendMessage := fun _ _ => Return tt;
     tpad.env_pause := fun _ => Return tt;
     tpad.env_getResponse := fun _ length _ =>
       Return (match length with Some 2 => data | _ => [] end);
     tpad.env_getTime := fun _ => now |}.

Definition example_tpad (data : list string) (now : spec_float) : tpad.TPad :=
  fst (tpad.TPad__init__ (example_env data now) []).

(** A port on which the exit command always faults, and one on which the
    mode-select commands fault. *)
Definition exit_faults_env : tpad.Env :=
  {| tpad.env_sendMessage := fun _ message =>
       if String.eqb message "X" then Raise SerialException else Return tt;
     tpad.env_pause := fun _ => Return tt;
     tpad.env_getResponse := fun _ _ _ => Return [];
     tpad.env_getTime := fun _ => tpad.float_of_Z 100 |}.

Definition select_faults_env : tpad.Env :=
  {| tpad.env_sendMessage := fun _ message =>
       if String.eqb message "X" then Return tt else Raise SerialException;
     tpad.env_pause := fun _ => Return tt;
     tpad.env_getResponse := fun _ _ _ => Return [];
     tpad.env_getTime := fun _ => tpad.float_of_Z 100 |}.

(** ** Vocabulary of the further properties *)

(** The devices of [ds] that a registry whose identities are [seen] takes in:
    those whose identity is neither registered nor carried by an earlier
    device of [ds]. *)
Fixpoint fresh_devices {Device K : Type} `{EqDecision K} (identity : Device -> K)
    (seen : list K) (ds : list Device) : list Device :=
  match ds with
  | [] => []
  | d :: rest =>
      if decide (identity d ∈ seen) then fresh_devices identity seen rest
      else d :: fresh_devices identity (seen ++ [identity d]) rest
  end.

(** Two driver states differ in the calls made at most: the message
    history, the handlers and the reset epoch are the same, and the calls of
    the first are the first calls of the second. *)
Definition only_calls_added (before after : tpad.TPad) : Prop :=
  tpad.calls before `prefix_of` tpad.calls after /\
  tpad.messages after = tpad.messages before /\
  tpad.photodiodes after = tpad.photodiodes before /\
  tpad.buttons after = tpad.buttons before /\
  tpad.voicekeys after = tpad.voicekeys before.

(** The handler lines are routed to on a driver as [TPad.__init__] builds
    it, by channel and decoded code. *)
Definition constructed_route (channel : string) (code : Z) : option tpad.Node :=
  if String.eqb channel "A" && bool_decide (1 <= code <= 10) then Some (tpad.ButtonNode code)
  else if String.eqb channel "C" && bool_decide (1 <= code <= 2) then Some (tpad.PhotodiodeNode code)
  else if String.eqb channel "M" && bool_decide (code = 1) then Some (tpad.VoicekeyNode code)
  else None.

(** The response photodiode [key] gets from a line, if any: the line is a
    grammar line of the Optos channel whose code is [key] and whose time
    converts. *)
Definition photodiode_response (epoch : spec_float) (threshold : option Z) (key : Z)
    (line : string) : option photodiode.PhotodiodeResponse :=
  match tpad.re_match tpad.messageFormat line with
  | Some [channel; state; button; time] =>
      match tpad.py_int button, tpad.py_float time with
      | Return k, Return ftime =>
          if String.eqb channel "C" && bool_decide (k = key) then
            Some {| photodiode.t := tpad.fadd (tpad.fdiv ftime (tpad.float_of_Z 1000)) epoch;
                    photodiode.value := photodiode.SBool (String.eqb state "P");
                    photodiode.threshold := threshold |}
          else None
      | _, _ => None
      end
  | _ => None
  end.

(** A device profile as the system profiler reports it. *)
Definition port_profile (manufacturer description : string) : gmap string string :=
  {[ "Manufacturer Name" := manufacturer; "Device Description" := description ]}.

(** A constructor that records its arguments in the manager's [devices]. *)
Definition recording_method : Manager.AddMethod unit :=
  fun name kwargs self =>
    ({| Manager.items := Manager.items self;
        Manager.devices := Some (name :: (snd <$> map_to_list kwargs)) |}, Return tt).

(** One history follows another: no timestamp is lost, one entry per
    timestamp stays one entry per timestamp, lines that match the grammar stay
    the only lines, and the number of entries does not go down. *)
Definition history_grows (before after : list (spec_float * string)) : Prop :=
  (forall ts, tpad.dict_get ts before <> None -> tpad.dict_get ts after <> None) /\
  (well_keyed before -> well_keyed after) /\
  (Forall (fun kv => tpad.re_match tpad.messageFormat (snd kv) <> None) before ->
   Forall (fun kv => tpad.re_match tpad.messageFormat (snd kv) <> None) after) /\
  (length before <= length after)%nat.

(** A serial device on which sending [command] raises [e] and every other
    call returns; reads return nothing and the clock shows 200 s. *)
Definition faulty_env (command : string) (e : exn) : tpad.Env :=
  {| tpad.env_sendMessage := fun _ message =>
       if String.eqb message command then Raise e else Return tt;
     tpad.env_pause := fun _ => Return tt;
     tpad.env_getResponse := fun _ _ _ => Return [];
     tpad.env_getTime := fun _ => tpad.float_of_Z 200 |}.

(** A serial device that answers the read after ["HELP"] with one line and
    every other read with nothing. *)
Definition help_env : tpad.Env :=
  {| tpad.env_sendMessage := fun _ _ => Return tt;
     tpad.env_pause := fun _ => Return tt;
     tpad.env_getResponse := fun h _ _ =>
       Return (match last h with
               | Some (tpad.call_sendMessage message) =>
                   if String.eqb message "HELP" then ["BBTK TPad"] else []
               | _ => []
               end);
     tpad.env_getTime := fun _ => tpad.float_of_Z 100 |}.

(** [s.isascii()]: every character of [s] has a code below 128.  Such a
    string is the same whether it is read as bytes or as text, and among its
    characters [\d], [int] and [float] know the digits 0 to 9 only. *)
Fixpoint isascii (s : string) : bool :=
  match s with
  | EmptyString => true
  | String c s' => (N_of_ascii c <? 128)%N && isascii s'
  end.

(** ** Generic facts about the effect layer *)

Lemma for_each_app {S A} (body : A -> M S unit) (xs ys : list A) (s : S) :
  for_each body (xs ++ ys) s =
  match for_each body xs s with
  | (s', Return _) => for_each body ys s'
  | (s', Raise e) => (s', Raise e)
  end.
Proof.
  revert s. induction xs as [|x xs IH]; intros s; simpl.
  - reflexivity.
  - unfold bind. destruct (body x s) as [s1 [[]|e]]; [apply IH | reflexivity].
Qed.


(** ** The registry: [registerDevice] *)

Section RegistryFacts.

Import Manager.

Context {Device Params : Type}.
Variable __dict__ : Device -> Params.
Variable isSameDevice : Device -> Params -> bool.

Lemma registerDevice_scan_true (objs : list Device) (d : Device) :
  registerDevice_scan __dict__ isSameDevice objs d = true <->
  exists obj, obj ∈ objs /\ isSameDevice obj (__dict__ d) = true.
Proof.
  induction objs as [|o objs IH]; simpl.
  - split; [discriminate | intros (obj & Hin & _); inversion Hin].
  - destruct (isSameDevice o (__dict__ d)) eqn:Ho.
    + split; [intros _; exists o; split; [left | exact Ho] | reflexivity].
    + rewrite IH. split.
      * intros (obj & Hin & Hobj). exists obj. split; [right; exact Hin | exact Hobj].
      * intros (obj & Hin & Hobj). exists obj. split; [| exact Hobj].
        apply elem_of_cons in Hin as [-> | Hin]; [congruence | exact Hin].
Qed.

Lemma registerDevice_scan_false (objs : list Device) (d : Device) :
  registerDevice_scan __dict__ isSameDevice objs d = false <->
  forall obj, obj ∈ objs -> isSameDevice obj (__dict__ d) = false.
Proof.
  rewrite <- not_true_iff_false, registerDevice_scan_true. split.
  - intros Hno obj Hin. apply not_true_iff_false. intros Hobj. apply Hno. eauto.
  - intros Hall (obj & Hin & Hobj). rewrite (Hall obj Hin) in Hobj. discriminate.
Qed.

(** When [isSameDevice] compares an identity drawn from the parameters, the
    scan finds a device exactly when its identity is already registered. *)
Section Identity.

Context {K : Type}.
Variable ident : Params -> K.
Hypothesis isSameDevice_ident :
  forall obj p, isSameDevice obj p = true <-> ident (__dict__ obj) = ident p.

Lemma registerDevice_scan_ident (self : DeviceManager Device) (d : Device) :
  registerDevice_scan __dict__ isSameDevice (items self) d = true <->
  ident (__dict__ d) ∈ identities __dict__ ident self.
Proof.
  rewrite registerDevice_scan_true. unfold identities. rewrite list_elem_of_fmap. split.
  - intros (obj & Hin & Hobj). exists obj. apply isSameDevice_ident in Hobj. auto.
  - intros (obj & Heq & Hin). exists obj. split; [exact Hin |].
    apply isSameDevice_ident. congruence.
Qed.

Lemma registerDevice_identities (self : DeviceManager Device) (d : Device) :
  NoDup (identities __dict__ ident self) ->
  NoDup (identities __dict__ ident (registerDevice __dict__ isSameDevice self d)) /\
  ident (__dict__ d) ∈ identities __dict__ ident (registerDevice __dict__ isSameDevice self d).
Proof.
  intros Hnd. unfold registerDevice.
  destruct (registerDevice_scan __dict__ isSameDevice (items self) d) eqn:Hscan.
  - split; [exact Hnd |]. apply registerDevice_scan_ident. exact Hscan.
  - assert (Hfresh : ident (__dict__ d) ∉ identities __dict__ ident self).
    { rewrite <- registerDevice_scan_ident. rewrite Hscan. discriminate. }
    unfold identities, append. simpl. rewrite map_app. simpl. split.
    + apply NoDup_app. split; [exact Hnd |]. split.
      * intros k Hk Hk'. apply list_elem_of_singleton in Hk'. subst k. exact (Hfresh Hk).
      * apply NoDup_singleton.
    + apply elem_of_app. right. apply list_elem_of_singleton. reflexivity.
Qed.

Lemma no_entry_for_identity `{EqDecision K} (objs : list Device) (k : K) :
  k ∉ map (fun obj => ident (__dict__ obj)) objs ->
  filter (fun obj => ident (__dict__ obj) = k) objs = [].
Proof.
  induction objs as [|o objs IH]; simpl; intros Hno; [reflexivity |].
  rewrite not_elem_of_cons in Hno. destruct Hno as [Hne Hno].
  rewrite filter_cons. destruct (decide (ident (__dict__ o) = k)); [congruence |].
  apply IH. exact Hno.
Qed.

Lemma one_entry_per_identity `{EqDecision K} (objs : list Device) (k : K) :
  NoDup (map (fun obj => ident (__dict__ obj)) objs) ->
  k ∈ map (fun obj => ident (__dict__ obj)) objs ->
  length (filter (fun obj => ident (__dict__ obj) = k) objs) = 1%nat.
Proof.
  induction objs as [|o objs IH]; simpl; intros Hnd Hin.
  - inversion Hin.
  - apply NoDup_cons in Hnd as [Hno Hnd].
    rewrite filter_cons. destruct (decide (ident (__dict__ o) = k)) as [Heq | Hne].
    + simpl. f_equal. subst k. rewrite no_entry_for_identity; [reflexivity | exact Hno].
    + apply IH; [exact Hnd |].
      apply elem_of_cons in Hin as [Heq | Hin]; [congruence | exact Hin].
Qed.

End Identity.

End RegistryFacts.

(** C1.  [registerDevice] discards a device that some registered device
    reports as the same ([isSameDevice] on its parameters) and leaves the
    registry as it was; a device no registered one reports as the same is
    appended.  So, when [isSameDevice] compares identity parameters and the
    registry holds no two devices of one identity, registering two devices
    of identical identity keeps that invariant and leaves exactly one entry
    of that identity; from the empty registry the entry is the first of the
    two. *)
Theorem registerDevice_duplicate_discarded
    {Device Params : Type} (__dict__ : Device -> Params)
    (isSameDevice : Device -> Params -> bool)
    (self : Manager.DeviceManager Device) (d : Device) :
  ((exists obj, obj ∈ Manager.items self /\ isSameDevice obj (__dict__ d) = true) ->
     Manager.registerDevice __dict__ isSameDevice self d = self) /\
  ((forall obj, obj ∈ Manager.items self -> isSameDevice obj (__dict__ d) = false) ->
     Manager.registerDevice __dict__ isSameDevice self d = Manager.append self d) /\
  (forall d', isSameDevice d (__dict__ d') = true ->
     Manager.registerDevice __dict__ isSameDevice
       (Manager.registerDevice __dict__ isSameDevice Manager.mgr d) d'
     = Manager.append Manager.mgr d) /\
  (forall (K : Type) (HK : EqDecision K) (ident : Params -> K) (d' : Device),
     (forall obj p, isSameDevice obj p = true <-> ident (__dict__ obj) = ident p) ->
     NoDup (identities __dict__ ident self) ->
     ident (__dict__ d') = ident (__dict__ d) ->
     let after :=
       Manager.registerDevice __dict__ isSameDevice
         (Manager.registerDevice __dict__ isSameDevice self d) d' in
     NoDup (identities __dict__ ident after) /\
  length (filter (fun obj => ident (__dict__ obj) = ident (__dict__ d))
                    (Manager.items after)) = 1%nat).
Proof.
  split; [| split; [| split]].
  - intros Hdup. unfold Manager.registerDevice.
    apply registerDevice_scan_true in Hdup. rewrite Hdup. reflexivity.
  - intros Hnew. unfold Manager.registerDevice.
    apply registerDevice_scan_false in Hnew. rewrite Hnew. reflexivity.
  - intros d' Hsame. unfold Manager.registerDevice at 2. simpl.
    unfold Manager.registerDevice. simpl. rewrite Hsame. reflexivity.
  - intros K HK ident d' Hident Hnd Hd' after.
    destruct (registerDevice_identities __dict__ isSameDevice ident Hident self d Hnd)
      as [Hnd1 Hin1].
    destruct (registerDevice_identities __dict__ isSameDevice ident Hident _ d' Hnd1)
      as [Hnd2 Hin2].
    fold after in Hnd2, Hin2. split; [exact Hnd2 |].
    apply one_entry_per_identity; [exact Hnd2 |]. rewrite <- Hd'. exact Hin2.
Qed.

(** A registry of (type, port) pairs compared on both components. *)
Lemma registerDevice_duplicate_discarded_witness :
  let dict := fun d : string * Z => d in
  let same := fun (obj p : string * Z) => bool_decide (obj = p) in
  let reg := {| Manager.items := [("Serial", 1)]; Manager.devices := None |} in
  Manager.registerDevice dict same reg ("Serial", 1) = reg /\
  Manager.registerDevice dict same reg ("Serial", 2)
    = Manager.append reg ("Serial", 2) /\
  Manager.registerDevice dict same
    (Manager.registerDevice dict same Manager.mgr ("Serial", 1)) ("Serial", 1)
    = Manager.append Manager.mgr ("Serial", 1) /\
  length (filter (fun obj => dict obj = ("Serial", 2))
            (Manager.items
               (Manager.registerDevice dict same
                  (Manager.registerDevice dict same reg ("Serial", 2)) ("Serial", 2))))
    = 1%nat.
Proof.
  intros dict same reg.
  split; [| split; [| split]].
  - destruct (registerDevice_duplicate_discarded dict same reg ("Serial", 1))
      as (Hdup & _).
    apply Hdup. exists (pair "Serial" 1). split; [left | reflexivity].
  - destruct (registerDevice_duplicate_discarded dict same reg ("Serial", 2))
      as (_ & Hnew & _).
    apply Hnew. intros obj Hin. apply list_elem_of_singleton in Hin. subst obj. reflexivity.
  - destruct (registerDevice_duplicate_discarded dict same Manager.mgr ("Serial", 1))
      as (_ & _ & Htwo & _).
    apply Htwo. reflexivity.
  - destruct (registerDevice_duplicate_discarded dict same reg ("Serial", 2))
      as (_ & _ & _ & Hone).
    apply (Hone (string * Z)%type _ dict ("Serial", 2)).
    + intros obj p. unfold same. apply bool_decide_eq_true.
    + unfold identities. simpl. apply NoDup_singleton.
    + reflexivity.
Defined.

(** ** Floats: equality of timestamps *)

Section FloatFacts.

Import tpad.

Lemma feq_same_number (x y : spec_float) : feq x y = true <-> same_number x y.
Proof.
  unfold feq, SFeqb, same_number. split.
  - destruct x as [sx | sx | | sx mx ex], y as [sy | sy | | sy my ey]; simpl;
      try discriminate;
      try (destruct sx; discriminate); try (destruct sy; discriminate).
    + intros _. right. eauto.
    + destruct sx, sy; try discriminate; intros _; left; split; congruence.
    + destruct sx, sy; try discriminate;
        destruct (Z.compare_spec ex ey) as [-> | |]; try discriminate;
        rewrite Pos.compare_cont_spec; simpl;
        destruct (Pos.compare_spec mx my) as [-> | |]; try discriminate;
        intros _; left; split; congruence.
  - intros [[<- Hnan] | (sx & sy & -> & ->)]; [| reflexivity].
    destruct x as [sx | sx | | sx mx ex]; simpl; try reflexivity.
    + destruct sx; reflexivity.
    + congruence.
    + rewrite Z.compare_refl, Pos.compare_cont_refl. destruct sx; reflexivity.
Qed.

Lemma feq_sym (x y : spec_float) : feq x y = true -> feq y x = true.
Proof.
  rewrite !feq_same_number.
  intros [[<- Hnan] | (sx & sy & -> & ->)]; [left; auto | right; eauto].
Qed.

Lemma feq_trans (x y z : spec_float) :
  feq x y = true -> feq y z = true -> feq x z = true.
Proof.
  rewrite !feq_same_number.
  intros [[<- Hx] | (sx & sy & -> & ->)] [[<- Hy] | (sy' & sz & Hy & ->)].
  - left; auto.
  - right; eauto.
  - right; eauto.
  - right; eauto.
Qed.

Lemma feq_refl_left (x y : spec_float) : feq x y = true -> feq x x = true.
Proof. intros H. exact (feq_trans _ _ _ H (feq_sym _ _ H)). Qed.

(** [0.0 + x == x] for every number [x]. *)
Lemma fadd_zero_l (x : spec_float) :
  feq x x = true -> feq (fadd (S754_zero false) x) x = true.
Proof.
  intros Hx. destruct x as [sx | sx | | sx mx ex]; simpl in *; try exact Hx.
  - destruct sx; reflexivity.
Qed.

(** Float addition does not depend on the order of its operands. *)
Lemma fadd_comm (x y : spec_float) : fadd x y = fadd y x.
Proof.
  unfold fadd, SFadd.
  destruct x as [sx | sx | | sx mx ex], y as [sy | sy | | sy my ey]; try reflexivity.
  - destruct sx, sy; reflexivity.
  - destruct sx, sy; reflexivity.
  - rewrite (Z.min_comm ex ey), Z.add_comm. reflexivity.
Qed.

End FloatFacts.

(** ** The wire grammar *)

Section GrammarFacts.

Import tpad.

(** The starred digit group takes the longest run of digits. *)
Lemma re_match_time (ds rest : string) :
  all_digits ds = true -> no_digit_ahead rest ->
  re_match [GroupStar Digit] (ds +:+ rest) = Some [ds].
Proof.
  intros Hds Hrest. induction ds as [|a ds IH]; simpl in *.
  - destruct rest as [|b rest]; simpl in *; [reflexivity |].
    rewrite Hrest. reflexivity.
  - apply andb_true_iff in Hds as [Ha Hds]. rewrite Ha.
    rewrite (IH Hds). reflexivity.
Qed.

Lemma re_match_time_inv (s : string) (gs : list string) :
  re_match [GroupStar Digit] s = Some gs ->
  exists ds rest, s = ds +:+ rest /\ gs = [ds] /\ all_digits ds = true /\ no_digit_ahead rest.
Proof.
  revert gs. induction s as [|a s IH]; simpl; intros gs H.
  - injection H as <-. exists EmptyString, EmptyString. repeat split; reflexivity.
  - destruct (is_digit a) eqn:Ha.
    + destruct (re_match [GroupStar Digit] s) as [[|g gs']|] eqn:Hs; simpl in H, Hs;
        rewrite Hs in H.
      * destruct (IH _ eq_refl) as (ds & rest & _ & Hgs & _). discriminate.
      * destruct (IH _ eq_refl) as (ds & rest & -> & Hgs & Hds & Hrest).
        injection Hgs as <- <-. injection H as <-.
        exists (String a g), rest. simpl. rewrite Ha, Hds. repeat split; assumption.
      * injection H as <-. exists EmptyString, (String a s). simpl.
        repeat split. simpl in Hs.
        (* the star cannot fail: it can always stop *)
        exfalso. clear -Hs. induction s as [|b s IHs]; simpl in Hs; [discriminate |].
        destruct (is_digit b); [| discriminate].
        destruct (_ s) as [[|? ?]|] eqn:E in Hs; try discriminate.
    + injection H as <-. exists EmptyString, (String a s). simpl.
      repeat split. exact Ha.
Qed.

Lemma re_match_Group (k : charset) (p : pattern) (a : ascii) (s : string) :
  re_match (Group k :: p) (String a s) =
  if in_charset k a then option_map (cons (String a EmptyString)) (re_match p s) else None.
Proof. reflexivity. Qed.

Lemma re_match_Lit (c : ascii) (p : pattern) (a : ascii) (s : string) :
  re_match (Lit c :: p) (String a s) = if Ascii.eqb a c then re_match p s else None.
Proof. reflexivity. Qed.

Lemma re_match_spaced_line (c s b : ascii) (ds rest : string) :
  in_charset (class_of_keys channelCodes) c = true ->
  in_charset (class_of_keys stateCodes) s = true ->
  in_charset (class_of_keys buttonCodes) b = true ->
  all_digits ds = true -> no_digit_ahead rest ->
  re_match messageFormat (spaced_line c s b ds rest) =
  Some [String c EmptyString; String s EmptyString; String b EmptyString; ds].
Proof.
  intros Hc Hs Hb Hds Hrest. unfold messageFormat, spaced_line.
  rewrite re_match_Group, Hc, re_match_Lit, Ascii.eqb_refl.
  rewrite re_match_Group, Hs, re_match_Lit, Ascii.eqb_refl.
  rewrite re_match_Group, Hb, re_match_Lit, Ascii.eqb_refl.
  rewrite (re_match_time ds rest Hds Hrest). reflexivity.
Qed.

(** Conversely, every line the grammar matches is such a line. *)
Lemma re_match_messageFormat_inv (line : string) (gs : list string) :
  re_match messageFormat line = Some gs ->
  exists c s b ds rest,
    line = spaced_line c s b ds rest /\
    gs = [String c EmptyString; String s EmptyString; String b EmptyString; ds] /\
    in_charset (class_of_keys channelCodes) c = true /\
    in_charset (class_of_keys stateCodes) s = true /\
    in_charset (class_of_keys buttonCodes) b = true /\
    all_digits ds = true /\ no_digit_ahead rest.
Proof.
  unfold messageFormat. intros H.
  destruct line as [|c line]; [discriminate |].
  rewrite re_match_Group in H.
  destruct (in_charset (class_of_keys channelCodes) c) eqn:Hc; [| discriminate].
  destruct line as [|x1 line]; [discriminate |].
  rewrite re_match_Lit in H. destruct (Ascii.eqb_spec x1 " ") as [-> |]; [| discriminate].
  destruct line as [|s line]; [discriminate |].
  rewrite re_match_Group in H.
  destruct (in_charset (class_of_keys stateCodes) s) eqn:Hs; [| discriminate].
  destruct line as [|x2 line]; [discriminate |].
  rewrite re_match_Lit in H. destruct (Ascii.eqb_spec x2 " ") as [-> |]; [| discriminate].
  destruct line as [|b line]; [discriminate |].
  rewrite re_match_Group in H.
  destruct (in_charset (class_of_keys buttonCodes) b) eqn:Hb; [| discriminate].
  destruct line as [|x3 line]; [discriminate |].
  rewrite re_match_Lit in H. destruct (Ascii.eqb_spec x3 " ") as [-> |]; [| discriminate].
  destruct (re_match [GroupStar Digit] line) as [gs4|] eqn:Ht; [| discriminate].
  destruct (re_match_time_inv _ _ Ht) as (ds & rest & -> & -> & Hds & Hrest).
  simpl in H. injection H as <-.
  exists c, s, b, ds, rest. repeat split; assumption.
Qed.

End GrammarFacts.

(** ** The driver: one line of [dispatchMessages] *)

Section LineFacts.

Import tpad.

(** A line the grammar does not match is skipped: nothing changes. *)
Lemma dispatchMessages_line_unmatched (line : string) (self : TPad) :
  re_match messageFormat line = None ->
  dispatchMessages_line line self = (self, Return tt).
Proof. intros H. unfold dispatchMessages_line. rewrite H. reflexivity. Qed.

(** A matched line whose button and time convert, after a reset: the line is
    stored under its timestamp, then dispatched to the chosen handler. *)
Lemma dispatchMessages_line_matched
    (line channel state button time : string) (k : Z) (ftime epoch : spec_float)
    (self : TPad) :
  re_match messageFormat line = Some [channel; state; button; time] ->
  py_int button = Return k ->
  py_float time = Return ftime ->
  _lastTimerReset self = Some epoch ->
  dispatchMessages_line line self =
  let ts := fadd (fdiv ftime (float_of_Z 1000)) epoch in
  let stored := set_messages (dict_set ts line) self in
  match choose_node stored channel k with
  | Some node => dispatch node (channel, state, k, ts) stored
  | None => (stored, Return tt)
  end.
Proof.
  intros Hm Hb Ht He. unfold dispatchMessages_line, splitTPadMessage.
  rewrite Hm. unfold bind, lift, gets, modify, ret. rewrite Hb, Ht, He. simpl.
  destruct (choose_node _ channel k); reflexivity.
Qed.

Lemma py_int_digit (b : ascii) :
  is_digit b = true -> py_int (String b EmptyString) = Return (digit_value b).
Proof.
  intros Hb. unfold py_int. simpl. rewrite Hb. simpl.
  f_equal.
Qed.

Lemma py_float_digits (ds : string) :
  all_digits ds = true -> ds <> EmptyString ->
  py_float ds = Return (float_of_Z (digits_value 0 ds)).
Proof.
  intros Hds Hne. unfold py_float, py_int. rewrite Hds.
  destruct ds; [congruence | reflexivity].
Qed.

(** The same for a line given by its fields. *)
Lemma dispatchMessages_line_spaced
    (c s b : ascii) (ds rest : string) (epoch : spec_float) (self : TPad) :
  in_charset (class_of_keys channelCodes) c = true ->
  in_charset (class_of_keys stateCodes) s = true ->
  is_digit b = true ->
  all_digits ds = true -> ds <> EmptyString -> no_digit_ahead rest ->
  _lastTimerReset self = Some epoch ->
  dispatchMessages_line (spaced_line c s b ds rest) self =
  let ts := timestamp (digits_value 0 ds) epoch in
  let stored := set_messages (dict_set ts (spaced_line c s b ds rest)) self in
  match choose_node stored (String c EmptyString) (digit_value b) with
  | Some node =>
      dispatch node (String c EmptyString, String s EmptyString, digit_value b, ts) stored
  | None => (stored, Return tt)
  end.
Proof.
  intros Hc Hs Hb Hds Hne Hrest He.
  apply dispatchMessages_line_matched with (button := String b EmptyString)
                                           (time := ds).
  - apply re_match_spaced_line; try assumption.
    clear -Hb. unfold is_digit in Hb. unfold class_of_keys. simpl.
    destruct b as [[] [] [] [] [] [] [] []]; try discriminate; reflexivity.
  - apply py_int_digit. exact Hb.
  - apply py_float_digits; assumption.
  - exact He.
Qed.

End LineFacts.

(** ** The driver: decoding and delivery *)

Section DispatchFacts.

Import tpad.

Lemma choose_node_optos (self : TPad) (key : Z) :
  is_Some (photodiodes self !! key) ->
  choose_node self "C" key = Some (PhotodiodeNode key).
Proof.
  intros H. unfold choose_node. simpl. rewrite (bool_decide_eq_true_2 _ H). reflexivity.
Qed.

Lemma choose_node_buttons (self : TPad) (key : Z) :
  is_Some (buttons self !! key) ->
  choose_node self "A" key = Some (ButtonNode key).
Proof.
  intros H. unfold choose_node. simpl. rewrite (bool_decide_eq_true_2 _ H). reflexivity.
Qed.

Lemma choose_node_voicekeys (self : TPad) (key : Z) :
  is_Some (voicekeys self !! key) ->
  choose_node self "M" key = Some (VoicekeyNode key).
Proof.
  intros H. unfold choose_node. simpl. rewrite (bool_decide_eq_true_2 _ H). reflexivity.
Qed.

(** Nothing listens on the TTL channel. *)
Lemma choose_node_ttl (self : TPad) (key : Z) : choose_node self "T" key = None.
Proof. reflexivity. Qed.

End DispatchFacts.

(** C2.  After a reset at host time [T0], the wire line ["C P 1 500"] splits
    into channel ["C"] (Optos), state ["P"] (pressed), code ["1"] and time
    ["500"]; [dispatchMessages] stores the line and delivers to photodiode
    handler 1 a response of value [True] whose timestamp is
    [500 / 1000 + T0], that is [0.5 + T0] (and [T0 + 0.5]). *)
Theorem dispatch_optos_line
    (env : tpad.Env) (timeout T0 : spec_float) (self : tpad.TPad)
    (pd : tpad.TPadPhotodiode) :
  tpad._lastTimerReset self = Some T0 ->
  tpad.photodiodes self !! 1 = Some pd ->
  tpad.env_getResponse env (tpad.calls self) (Some 2) (Some timeout)
    = Return ["C P 1 500"] ->
  tpad.env_pause env (tpad.calls self ++ [tpad.call_getResponse (Some 2) (Some timeout)])
    = Return tt ->
  let ts := tpad.timestamp 500 T0 in
  let response :=
    {| photodiode.t := ts;
       photodiode.value := photodiode.SBool true;
       photodiode.threshold := photodiode.getThreshold (tpad.base pd) |} in
  tpad.splitTPadMessage "C P 1 500" = Return ("C", "P", "1", "500") /\
  tpad.code_lookup "C" tpad.channelCodes = Some "Optos" /\
  tpad.code_lookup "P" tpad.stateCodes = Some "Pressed/On" /\
  ts = tpad.fadd one_half T0 /\
  ts = tpad.fadd T0 one_half /\
  tpad.dispatchMessages env timeout self =
    ({| tpad.calls :=
          (tpad.calls self ++ [tpad.call_getResponse (Some 2) (Some timeout)])
            ++ [tpad.call_pause];
        tpad.messages := tpad.dict_set ts "C P 1 500" (tpad.messages self);
        tpad.photodiodes := <[1 := tpad.receive pd response]> (tpad.photodiodes self);
        tpad.buttons := tpad.buttons self;
        tpad.voicekeys := tpad.voicekeys self;
        tpad._lastTimerReset := Some T0 |}, Return tt) /\
  photodiode.messages (tpad.base (tpad.receive pd response))
    = photodiode.messages (tpad.base pd) ++ [response].
Proof.
  intros Hepoch Hpd Hdata Hpause ts response.
  assert (Hts : ts = tpad.fadd one_half T0) by reflexivity.
  repeat split; try reflexivity.
  - rewrite Hts. apply fadd_comm.
  - unfold tpad.dispatchMessages, bind, tpad.getResponse, tpad.pause.
    rewrite Hdata. simpl. rewrite Hpause. simpl. unfold bind.
    change "C P 1 500" with (spaced_line "C" "P" "1" "500" "").
    rewrite (dispatchMessages_line_spaced "C" "P" "1" "500" "" T0);
      try reflexivity; [| discriminate | exact Hepoch].
    cbv zeta. change (tpad.digit_value "1") with 1.
    rewrite choose_node_optos; [| simpl; rewrite Hpd; eauto].
    simpl. rewrite Hpd. unfold ret, tpad.set_photodiodes. simpl. rewrite Hepoch.
    reflexivity.
Qed.

(** Reset at host time 100 s: the response reaches handler 1 with timestamp
    100.5 s, that is 7072058789855232 * 2^-46. *)
Lemma dispatch_optos_line_witness :
  let env := example_env ["C P 1 500"] (tpad.float_of_Z 100) in
  let self := example_tpad ["C P 1 500"] (tpad.float_of_Z 100) in
  let after := tpad.dispatchMessages env tpad.default_timeout self in
  snd after = Return tt /\
  (fun pd => photodiode.messages (tpad.base pd)) <$> (tpad.photodiodes (fst after) !! 1)
    = Some [ {| photodiode.t := S754_finite false 7072058789855232 (-46);
                photodiode.value := photodiode.SBool true;
                photodiode.threshold := None |} ].
Proof.
  intros env self after.
  destruct (dispatch_optos_line env tpad.default_timeout (tpad.float_of_Z 100) self
              (tpad.TPadPhotodiode__init__ 1)
              eq_refl eq_refl eq_refl eq_refl) as (_ & _ & _ & _ & _ & Hafter & _).
  unfold after. rewrite Hafter. split; reflexivity.
Defined.

(** ** The driver: lines outside the grammar, and lines inside it *)

Section GuardFacts.

Import tpad.



(** Handing a line to a handler leaves the history of raw lines alone. *)
Lemma dispatch_messages (node : Node) (parts : Parts) (self : TPad) :
  messages (fst (dispatch node parts self)) = messages self.
Proof.
  destruct node; simpl; try reflexivity.
  destruct (photodiodes self !! key); reflexivity.
Qed.

End GuardFacts.



(** C5, as stated, fails: the fields of ["CP1500"] are a channel, a state, a
    code and a decimal time directly concatenated, yet the grammar does not
    match the line and [dispatchMessages] discards it. *)
Lemma concatenated_line_discarded :
  let line := String "C" (String "P" (String "1" "500")) in
  let env := example_env [line] (tpad.float_of_Z 100) in
  let self := example_tpad [line] (tpad.float_of_Z 100) in
  (tpad.in_charset (tpad.class_of_keys tpad.channelCodes) "C" = true /\
   tpad.in_charset (tpad.class_of_keys tpad.stateCodes) "P" = true /\
   tpad.in_charset (tpad.class_of_keys tpad.buttonCodes) "1" = true /\
   tpad.all_digits "500" = true) /\
  line = "CP1500" /\
  tpad.re_match tpad.messageFormat line = None /\
  tpad.messages (fst (tpad.dispatchMessages env tpad.default_timeout self)) = [].
Proof. repeat split; reflexivity. Qed.

(** C5, amended.  Every line made of a channel character from A, C, M, T, a
    state character from P, R, a code character from the digits and the two
    brackets, and a run of decimal digits, separated by single spaces (and not
    followed by a further digit), matches the message grammar and so passes
    the guard of [dispatchMessages]; when the code is a digit, the time is not
    empty and a reset epoch is recorded, the line is stored in the message
    history under its timestamp. *)
Theorem spaced_line_accepted
    (c s b : ascii) (ds rest : string) :
  tpad.in_charset (tpad.class_of_keys tpad.channelCodes) c = true ->
  tpad.in_charset (tpad.class_of_keys tpad.stateCodes) s = true ->
  tpad.in_charset (tpad.class_of_keys tpad.buttonCodes) b = true ->
  tpad.all_digits ds = true -> no_digit_ahead rest ->
  let line := spaced_line c s b ds rest in
  tpad.re_match tpad.messageFormat line
    = Some [String c EmptyString; String s EmptyString; String b EmptyString; ds] /\
  (tpad.is_digit b = true -> ds <> EmptyString ->
   forall (self : tpad.TPad) (epoch : spec_float),
     tpad._lastTimerReset self = Some epoch ->
     tpad.messages (fst (tpad.dispatchMessages_line line self))
       = tpad.dict_set (tpad.timestamp (tpad.digits_value 0 ds) epoch) line
           (tpad.messages self)).
Proof.
  intros Hc Hs Hb Hds Hrest line. split.
  - apply re_match_spaced_line; assumption.
  - intros Hdigit Hne self epoch Hepoch. unfold line.
    rewrite (dispatchMessages_line_spaced c s b ds rest epoch self); try assumption.
    cbv zeta. destruct (tpad.choose_node _ _ _) as [node|]; [| reflexivity].
    rewrite dispatch_messages. reflexivity.
Qed.

Lemma spaced_line_accepted_witness :
  let self := example_tpad [] (tpad.float_of_Z 100) in
  tpad.re_match tpad.messageFormat "T R 7 1250" = Some ["T"; "R"; "7"; "1250"] /\
  tpad.messages (fst (tpad.dispatchMessages_line "T R 7 1250" self))
    = [(S754_finite false 7124835347988480 (-46), "T R 7 1250")].
Proof.
  intros self.
  destruct (spaced_line_accepted "T" "R" "7" "1250" ""
              eq_refl eq_refl eq_refl eq_refl I) as [Hmatch Hstored].
  split; [exact Hmatch |].
  refine (eq_trans
            (Hstored eq_refl ltac:(discriminate) self (tpad.float_of_Z 100) eq_refl) _).
  reflexivity.
Defined.

(** C9 fails on the code: a button line, or a voice-key line, that the grammar
    matches and whose code names a registered handler is stored in the
    history, and then the dispatch raises AttributeError, because the button
    and voice-key classes have no [parseMessage]. *)
Theorem button_line_faults
    (s b : ascii) (ds rest : string) (epoch : spec_float) (self : tpad.TPad) :
  tpad.in_charset (tpad.class_of_keys tpad.stateCodes) s = true ->
  tpad.is_digit b = true ->
  tpad.all_digits ds = true -> ds <> EmptyString -> no_digit_ahead rest ->
  tpad._lastTimerReset self = Some epoch ->
  (is_Some (tpad.buttons self !! tpad.digit_value b) ->
   tpad.dispatchMessages_line (spaced_line "A" s b ds rest) self =
     (tpad.set_messages
        (tpad.dict_set (tpad.timestamp (tpad.digits_value 0 ds) epoch)
           (spaced_line "A" s b ds rest)) self,
      Raise (AttributeError "parseMessage"))) /\
  (is_Some (tpad.voicekeys self !! tpad.digit_value b) ->
   tpad.dispatchMessages_line (spaced_line "M" s b ds rest) self =
     (tpad.set_messages
        (tpad.dict_set (tpad.timestamp (tpad.digits_value 0 ds) epoch)
           (spaced_line "M" s b ds rest)) self,
      Raise (AttributeError "parseMessage"))).
Proof.
  intros Hs Hb Hds Hne Hrest Hepoch. split; intros Hnode.
  - rewrite (dispatchMessages_line_spaced "A" s b ds rest epoch self);
      try assumption; [| reflexivity].
    cbv zeta. rewrite choose_node_buttons; [reflexivity | exact Hnode].
  - rewrite (dispatchMessages_line_spaced "M" s b ds rest epoch self);
      try assumption; [| reflexivity].
    cbv zeta. rewrite choose_node_voicekeys; [reflexivity | exact Hnode].
Qed.

(** On the driver as constructed, the button line ["A P 1 500"] makes
    [dispatchMessages] raise. *)
Lemma button_line_faults_witness :
  let env := example_env ["A P 1 500"] (tpad.float_of_Z 100) in
  let self := example_tpad ["A P 1 500"] (tpad.float_of_Z 100) in
  tpad.dispatchMessages_line "A P 1 500" self
    = (tpad.set_messages
         (tpad.dict_set (tpad.timestamp 500 (tpad.float_of_Z 100)) "A P 1 500") self,
       Raise (AttributeError "parseMessage")) /\
  snd (tpad.dispatchMessages env tpad.default_timeout self)
    = Raise (AttributeError "parseMessage").
Proof.
  intros env self. split; [| reflexivity].
  destruct (button_line_faults "P" "1" "500" "" (tpad.float_of_Z 100) self
              eq_refl eq_refl eq_refl ltac:(discriminate) I eq_refl) as [Hbutton _].
  apply Hbutton. exists (tpad.TPadButton__init__ 1). reflexivity.
Defined.

(** ** The driver: mode changes and the timer reset *)

Section ModeFacts.

Import tpad.

Variable env : Env.

(** Once the read and the pause have returned, [dispatchMessages] is the loop
    over the lines read. *)
Lemma dispatchMessages_read (timeout : spec_float) (self : TPad) (data : list string) :
  env_getResponse env (calls self) (Some 2) (Some timeout) = Return data ->
  env_pause env (calls self ++ [call_getResponse (Some 2) (Some timeout)]) = Return tt ->
  dispatchMessages env timeout self =
  for_each dispatchMessages_line data
    (set_calls (fun h => h ++ [call_pause])
       (set_calls (fun h => h ++ [call_getResponse (Some 2) (Some timeout)]) self)).
Proof.
  intros Hdata Hpause. unfold dispatchMessages, bind, getResponse, pause.
  rewrite Hdata. simpl. rewrite Hpause. reflexivity.
Qed.

Lemma for_each_one {S A} (body : A -> M S unit) (x : A) (s : S) :
  for_each body [x] s = body x s.
Proof.
  simpl. unfold bind, ret. destruct (body x s) as [s' [[]|e]]; reflexivity.
Qed.

(** With reliable collaborators, [setMode] makes its five calls and returns. *)
Lemma setMode_reliable (mode : Z) (self : TPad) :
  reliable env ->
  setMode env mode self =
  (set_calls (fun h => h ++ [call_sendMessage "X"; call_pause;
                             call_sendMessage ("MOD" +:+ pretty mode); call_pause;
                             call_getResponse None None]) self,
   Return tt).
Proof.
  intros (Hsend & Hpause & Hrecv).
  unfold setMode, bind, try_pass, sendMessage, pause, getResponse, ret.
  rewrite Hsend. simpl. rewrite Hpause. simpl. rewrite Hsend. simpl.
  rewrite Hpause. simpl.
  destruct (Hrecv ((((calls self ++ [call_sendMessage "X"]) ++ [call_pause]) ++
                      [call_sendMessage ("MOD" +:+ pretty mode)]) ++ [call_pause])
                  None None) as [data Hd].
  rewrite Hd. unfold set_calls. simpl. rewrite <- !app_assoc. reflexivity.
Qed.

End ModeFacts.

(** C7.  When sending the exit command ["X"] raises a serial fault,
    [setMode] swallows it and goes on to the mode-select command: it completes
    the mode change when that command and the calls after it return.  A fault
    raised by sending the mode-select command itself, whether the exit step
    went through or was swallowed, is raised to the caller of [setMode]. *)
Theorem setMode_fault_semantics (env : tpad.Env) (mode : Z) (self : tpad.TPad) :
  let h0 := tpad.calls self in
  let select := "MOD" +:+ pretty mode in
  (tpad.env_sendMessage env h0 "X" = Raise SerialException ->
   let h1 := h0 ++ [tpad.call_sendMessage "X"] in
   (forall data,
      tpad.env_sendMessage env h1 select = Return tt ->
      tpad.env_pause env (h1 ++ [tpad.call_sendMessage select]) = Return tt ->
      tpad.env_getResponse env ((h1 ++ [tpad.call_sendMessage select]) ++ [tpad.call_pause])
        None None = Return data ->
      tpad.setMode env mode self =
        (tpad.set_calls
           (fun _ => ((h1 ++ [tpad.call_sendMessage select]) ++ [tpad.call_pause])
                       ++ [tpad.call_getResponse None None]) self,
         Return tt)) /\
   (forall e,
      tpad.env_sendMessage env h1 select = Raise e ->
      tpad.setMode env mode self =
        (tpad.set_calls (fun _ => h1 ++ [tpad.call_sendMessage select]) self, Raise e))) /\
  (tpad.env_sendMessage env h0 "X" = Return tt ->
   let h1 := (h0 ++ [tpad.call_sendMessage "X"]) ++ [tpad.call_pause] in
   tpad.env_pause env (h0 ++ [tpad.call_sendMessage "X"]) = Return tt \/
   tpad.env_pause env (h0 ++ [tpad.call_sendMessage "X"]) = Raise SerialException ->
   forall e,
     tpad.env_sendMessage env h1 select = Raise e ->
     tpad.setMode env mode self =
       (tpad.set_calls (fun _ => h1 ++ [tpad.call_sendMessage select]) self, Raise e)).
Proof.
  intros h0 select. split.
  - intros Hexit h1. split.
    + intros data Hsel Hpause Hrecv.
      unfold tpad.setMode, bind, try_pass, tpad.sendMessage, tpad.pause,
        tpad.getResponse, ret.
      fold h0. rewrite Hexit. simpl. fold h0 h1 select. rewrite Hsel. simpl.
      fold h0 h1 select. rewrite Hpause. simpl. fold h0 h1 select. rewrite Hrecv.
      reflexivity.
    + intros e Hsel.
      unfold tpad.setMode, bind, try_pass, tpad.sendMessage, tpad.pause,
        tpad.getResponse, ret.
      fold h0. rewrite Hexit. simpl. fold h0 h1 select. rewrite Hsel. reflexivity.
  - intros Hexit h1 Hpause e Hsel.
    unfold tpad.setMode, bind, try_pass, tpad.sendMessage, tpad.pause,
      tpad.getResponse, ret.
    fold h0. rewrite Hexit. simpl. fold h0.
    destruct Hpause as [Hpause | Hpause]; rewrite Hpause; simpl;
      fold h0 h1 select; rewrite Hsel; reflexivity.
Qed.

Lemma setMode_fault_semantics_witness :
  let self := example_tpad [] (tpad.float_of_Z 100) in
  snd (tpad.setMode exit_faults_env 3 self) = Return tt /\
  snd (tpad.setMode select_faults_env 3 self) = Raise SerialException.
Proof.
  intros self. split.
  - destruct (setMode_fault_semantics exit_faults_env 3 self) as [Hswallow _].
    destruct (Hswallow eq_refl) as [Hdone _].
    rewrite (Hdone [] eq_refl eq_refl eq_refl). reflexivity.
  - destruct (setMode_fault_semantics select_faults_env 3 self) as [_ Hraise].
    rewrite (Hraise eq_refl (or_introl eq_refl) SerialException eq_refl). reflexivity.
Defined.

(** C6.  With collaborators that do not fault, [resetTimer] sets mode 0
    (exit, ["MOD0"]), sends ["REST"], reads the host clock and records the
    time as the reset epoch, then sets mode 3 (exit, ["MOD3"]), in this
    order, and touches nothing else.  A line of raw time 0 dispatched next is
    stored under a timestamp [0 / 1000 + T0] equal to the recorded host time
    [T0], and a photodiode response decoded from it carries that timestamp. *)
Theorem resetTimer_epoch (env : tpad.Env) (self : tpad.TPad) :
  reliable env ->
  let before_clock :=
    tpad.calls self ++
      [tpad.call_sendMessage "X"; tpad.call_pause;
       tpad.call_sendMessage "MOD0"; tpad.call_pause;
       tpad.call_getResponse None None;
       tpad.call_sendMessage "REST"; tpad.call_pause] in
  let T0 := tpad.env_getTime env before_clock in
  let after :=
    {| tpad.calls :=
         before_clock ++
           [tpad.call_getTime;
            tpad.call_sendMessage "X"; tpad.call_pause;
            tpad.call_sendMessage "MOD3"; tpad.call_pause;
            tpad.call_getResponse None None];
       tpad.messages := tpad.messages self;
       tpad.photodiodes := tpad.photodiodes self;
       tpad.buttons := tpad.buttons self;
       tpad.voicekeys := tpad.voicekeys self;
       tpad._lastTimerReset := Some T0 |} in
  tpad.resetTimer env self = (after, Return tt) /\
  (forall (timeout : spec_float) (c s b : ascii) (ds rest : string),
     tpad.in_charset (tpad.class_of_keys tpad.channelCodes) c = true ->
     tpad.in_charset (tpad.class_of_keys tpad.stateCodes) s = true ->
     tpad.is_digit b = true ->
     tpad.all_digits ds = true -> ds <> EmptyString -> no_digit_ahead rest ->
     tpad.digits_value 0 ds = 0 ->
     tpad.env_getResponse env (tpad.calls after) (Some 2) (Some timeout)
       = Return [spaced_line c s b ds rest] ->
     tpad.feq T0 T0 = true ->
     let ts := tpad.timestamp 0 T0 in
     let dispatched := fst (tpad.dispatchMessages env timeout after) in
     tpad.feq ts T0 = true /\
     tpad.messages dispatched
       = tpad.dict_set ts (spaced_line c s b ds rest) (tpad.messages self) /\
     (forall pd, c = "C"%char ->
        tpad.photodiodes self !! tpad.digit_value b = Some pd ->
        tpad.photodiodes dispatched !! tpad.digit_value b
          = Some (tpad.receive pd
                    (tpad.parseMessage pd
                       ("C", String s EmptyString, tpad.digit_value b, ts))) /\
        photodiode.t (tpad.parseMessage pd
                        ("C", String s EmptyString, tpad.digit_value b, ts)) = ts)).
Proof.
  intros Hrel before_clock T0 after.
  assert (Hreset : tpad.resetTimer env self = (after, Return tt)).
  { unfold tpad.resetTimer. unfold bind at 1.
    rewrite (setMode_reliable env 0 self Hrel).
    destruct Hrel as (Hsend & Hpause & Hrecv).
    unfold bind at 1. unfold tpad.sendMessage at 1. rewrite Hsend.
    unfold bind at 1. unfold tpad.pause at 1. rewrite Hpause.
    unfold bind at 1. unfold tpad.getTime at 1.
    unfold bind at 1. unfold modify at 1.
    rewrite (setMode_reliable env 3 _ (conj Hsend (conj Hpause Hrecv))).
    unfold after, T0, before_clock, tpad.set_calls, tpad.set_lastTimerReset. simpl.
    rewrite <- !app_assoc. reflexivity. }
  split; [exact Hreset |].
  intros timeout c s b ds rest Hc Hs Hb Hds Hne Hrest Hzero Hdata HT0 ts dispatched.
  assert (Hline :
    tpad.dispatchMessages env timeout after =
    tpad.dispatchMessages_line (spaced_line c s b ds rest)
      (tpad.set_calls (fun h => h ++ [tpad.call_pause])
         (tpad.set_calls (fun h => h ++ [tpad.call_getResponse (Some 2) (Some timeout)])
            after))).
  { rewrite (dispatchMessages_read env timeout after _ Hdata).
    - apply for_each_one.
    - destruct Hrel as (_ & Hpause & _). apply Hpause. }
  rewrite (dispatchMessages_line_spaced c s b ds rest T0) in Hline;
    try assumption; [| reflexivity].
  rewrite Hzero in Hline. cbv zeta in Hline. fold ts in Hline.
  split; [| split].
  - apply fadd_zero_l. exact HT0.
  - unfold dispatched. rewrite Hline.
    destruct (tpad.choose_node _ _ _) as [node|]; [| reflexivity].
    rewrite dispatch_messages. reflexivity.
  - intros pd -> Hpd. split; [| reflexivity].
    unfold dispatched. rewrite Hline.
    rewrite choose_node_optos; [| simpl; rewrite Hpd; eauto].
    simpl. rewrite Hpd. simpl. apply lookup_insert_eq.
Qed.

Lemma resetTimer_epoch_witness :
  let env := example_env ["C P 1 0"] (tpad.float_of_Z 100) in
  let self := example_tpad ["C P 1 0"] (tpad.float_of_Z 100) in
  let after := fst (tpad.resetTimer env self) in
  tpad._lastTimerReset after = Some (tpad.float_of_Z 100) /\
  tpad.messages (fst (tpad.dispatchMessages env tpad.default_timeout after))
    = [(tpad.float_of_Z 100, "C P 1 0")].
Proof.
  intros env self after.
  assert (Hrel : reliable env).
  { repeat split. intros h length timeout. eexists. reflexivity. }
  destruct (resetTimer_epoch env self Hrel) as [Hreset Hdispatch].
  unfold after. rewrite Hreset. split; [reflexivity |].
  destruct (Hdispatch tpad.default_timeout "C"%char "P"%char "1"%char "0" ""
              eq_refl eq_refl eq_refl eq_refl ltac:(discriminate) I eq_refl
              eq_refl eq_refl) as (_ & Hstored & _).
  refine (eq_trans Hstored _). reflexivity.
Defined.

(** ** The message history *)

Section HistoryFacts.

Import tpad.

Lemma key_count_cons (ts k : spec_float) (v : string) (d : list (spec_float * string)) :
  key_count ts ((k, v) :: d) =
  ((if feq k ts then 1 else 0) + key_count ts d)%nat.
Proof.
  unfold key_count. rewrite filter_cons. simpl fst.
  destruct (feq k ts).
  - rewrite decide_True by reflexivity. reflexivity.
  - rewrite decide_False by discriminate. reflexivity.
Qed.

(** Setting a key that is present (up to [==]) changes a value only. *)
Lemma key_count_dict_set_present (ts key : spec_float) (v : string)
    (d : list (spec_float * string)) :
  dict_get key d <> None -> key_count ts (dict_set key v d) = key_count ts d.
Proof.
  induction d as [|[k v'] d IH]; simpl; intros H; [congruence |].
  destruct (feq k key) eqn:Hk.
  - rewrite !key_count_cons. reflexivity.
  - rewrite !key_count_cons. rewrite IH; [reflexivity | exact H].
Qed.

(** Setting a key that is absent adds one entry, counted for the timestamps
    equal to it. *)
Lemma key_count_dict_set_absent (ts key : spec_float) (v : string)
    (d : list (spec_float * string)) :
  dict_get key d = None ->
  key_count ts (dict_set key v d) =
  (key_count ts d + if feq key ts then 1 else 0)%nat.
Proof.
  induction d as [|[k v'] d IH]; simpl; intros H.
  - rewrite key_count_cons. unfold key_count. simpl. lia.
  - destruct (feq k key) eqn:Hk; [discriminate |].
    rewrite !key_count_cons, (IH H). lia.
Qed.

Lemma dict_get_None_count (ts : spec_float) (d : list (spec_float * string)) :
  dict_get ts d = None -> key_count ts d = 0%nat.
Proof.
  induction d as [|[k v] d IH]; simpl; intros H; [reflexivity |].
  rewrite key_count_cons. destruct (feq k ts); [discriminate |]. exact (IH H).
Qed.


(** Lookup does not tell equal timestamps apart. *)
Lemma dict_get_feq (t1 t2 : spec_float) (d : list (spec_float * string)) :
  feq t1 t2 = true -> dict_get t1 d = dict_get t2 d.
Proof.
  intros H. induction d as [|[k v] d IH]; simpl; [reflexivity |].
  assert (Hk : feq k t1 = feq k t2).
  { destruct (feq k t1) eqn:H1, (feq k t2) eqn:H2; try reflexivity.
    - rewrite (feq_trans _ _ _ H1 H) in H2. discriminate.
    - rewrite (feq_trans _ _ _ H2 (feq_sym _ _ H)) in H1. discriminate. }
  rewrite Hk, IH. reflexivity.
Qed.

Lemma key_count_feq (t1 t2 : spec_float) (d : list (spec_float * string)) :
  feq t1 t2 = true -> key_count t1 d = key_count t2 d.
Proof.
  intros H. induction d as [|[k v] d IH]; [reflexivity |].
  rewrite !key_count_cons, IH.
  destruct (feq k t1) eqn:H1, (feq k t2) eqn:H2; try reflexivity.
  - rewrite (feq_trans _ _ _ H1 H) in H2. discriminate.
  - rewrite (feq_trans _ _ _ H2 (feq_sym _ _ H)) in H1. discriminate.
Qed.

(** [d[key] = v] then [d.get(key)] gives [v], for a key that is a number. *)
Lemma dict_get_set_same (key : spec_float) (v : string) (d : list (spec_float * string)) :
  feq key key = true -> dict_get key (dict_set key v d) = Some v.
Proof.
  intros Hkey. induction d as [|[k v'] d IH]; simpl.
  - rewrite Hkey. reflexivity.
  - destruct (feq k key) eqn:Hk; simpl; rewrite Hk; [reflexivity | exact IH].
Qed.

(** Setting another timestamp leaves the lookup as it was. *)
Lemma dict_get_set_other (ts key : spec_float) (v : string)
    (d : list (spec_float * string)) :
  feq key ts = false -> dict_get ts (dict_set key v d) = dict_get ts d.
Proof.
  intros Hne. induction d as [|[k v'] d IH]; simpl.
  - rewrite Hne. reflexivity.
  - destruct (feq k key) eqn:Hk; simpl.
    + destruct (feq k ts) eqn:Hts; [| reflexivity].
      rewrite (feq_trans _ _ _ (feq_sym _ _ Hk) Hts) in Hne. discriminate.
    + destruct (feq k ts); [reflexivity | exact IH].
Qed.

(** One entry per timestamp is kept by every assignment. *)
Lemma well_keyed_dict_set (key : spec_float) (v : string) (d : list (spec_float * string)) :
  well_keyed d -> well_keyed (dict_set key v d).
Proof.
  intros Hd ts Hts. destruct (dict_get key d) as [v'|] eqn:Hget.
  - rewrite key_count_dict_set_present; [apply Hd; exact Hts | congruence].
  - rewrite (key_count_dict_set_absent _ _ _ _ Hget).
    destruct (feq key ts) eqn:Hk.
    + rewrite <- (key_count_feq _ _ d Hk).
      rewrite (dict_get_None_count _ _ Hget). lia.
    + specialize (Hd ts Hts). lia.
Qed.





(** Processing a line, whether it returns or raises, keeps the epoch and
    steps the history: the store comes before the dispatch, and nothing after
    it touches the history. *)
Lemma dispatchMessages_line_history (epoch : spec_float) (line : string) (self : TPad) :
  _lastTimerReset self = Some epoch ->
  _lastTimerReset (fst (dispatchMessages_line line self)) = Some epoch /\
  messages (fst (dispatchMessages_line line self))
    = history_step epoch (messages self) line.
Proof.
  intros Hepoch. unfold history_step, line_timestamp.
  destruct (re_match messageFormat line) as [gs|] eqn:Hm.
  - destruct (re_match_messageFormat_inv _ _ Hm)
      as (c & s & b & ds & rest & -> & -> & Hc & Hs & Hb & Hds & Hrest).
    destruct (py_int (String b EmptyString)) as [k|e] eqn:Hk.
    + destruct (py_float ds) as [ftime|e] eqn:Hf.
      * rewrite (dispatchMessages_line_matched _ _ _ _ _ k ftime epoch self Hm Hk Hf Hepoch).
        cbv zeta.
        destruct (choose_node _ _ _) as [node|]; [| split; [exact Hepoch | reflexivity]].
        rewrite dispatch_messages. split; [| reflexivity].
        destruct node; simpl; try exact Hepoch.
        destruct (photodiodes self !! key); exact Hepoch.
      * unfold dispatchMessages_line, splitTPadMessage. rewrite Hm.
        unfold bind, lift. rewrite Hk, Hf. split; [exact Hepoch | reflexivity].
    + unfold dispatchMessages_line, splitTPadMessage. rewrite Hm.
      unfold bind, lift. rewrite Hk. split; [exact Hepoch | reflexivity].
  - rewrite (dispatchMessages_line_unmatched _ _ Hm). split; [exact Hepoch | reflexivity].
Qed.

Lemma processed_app (xs ys : list string) (self : TPad) :
  processed (xs ++ ys) self = processed ys (processed xs self).
Proof. unfold processed. apply fold_left_app. Qed.

(** The same for any number of lines, in one call or in several. *)
Lemma processed_history (epoch : spec_float) (lines : list string) (self : TPad) :
  _lastTimerReset self = Some epoch ->
  _lastTimerReset (processed lines self) = Some epoch /\
  messages (processed lines self) = fold_left (history_step epoch) lines (messages self).
Proof.
  revert self. induction lines as [|line lines IH]; intros self Hepoch.
  - split; [exact Hepoch | reflexivity].
  - destruct (dispatchMessages_line_history epoch line self Hepoch) as [He1 Hm1].
    destruct (IH _ He1) as [He2 Hm2]. split; [exact He2 |].
    change (processed (line :: lines) self)
      with (processed lines (fst (dispatchMessages_line line self))).
    rewrite Hm2, Hm1. reflexivity.
Qed.

(** The loop of one call runs the body on the lines up to the first that
    raises, that one included, and on all of them when none raises. *)
Lemma for_each_processed (data : list string) (self : TPad) :
  exists lines,
    lines `prefix_of` data /\
    fst (for_each dispatchMessages_line data self) = processed lines self /\
    (snd (for_each dispatchMessages_line data self) = Return tt -> lines = data).
Proof.
  revert self. induction data as [|line data IH]; intros self.
  - exists []. split; [reflexivity | split; reflexivity].
  - simpl. unfold bind.
    destruct (dispatchMessages_line line self) as [s1 [[]|e]] eqn:Hline.
    + destruct (IH s1) as (lines & Hpre & Hst & Hall). exists (line :: lines).
      split; [apply prefix_cons, Hpre |]. split.
      * rewrite Hst. unfold processed. simpl. rewrite Hline. reflexivity.
      * intros Hret. rewrite (Hall Hret). reflexivity.
    + exists [line]. split; [apply prefix_cons, prefix_nil |]. split.
      * unfold processed. simpl. rewrite Hline. reflexivity.
      * discriminate.
Qed.

End HistoryFacts.

Section HistoryTheorem.

Import tpad.


(** A whole call of [dispatchMessages], whatever the serial device does and
    however the call ends, does to the history what processing the first
    lines of the data read does, and keeps the epoch: so the lines that
    several calls process follow one another as in [processed]. *)
Lemma dispatchMessages_history (env : Env) (timeout epoch : spec_float) (self : TPad) :
  _lastTimerReset self = Some epoch ->
  exists lines,
    _lastTimerReset (fst (dispatchMessages env timeout self)) = Some epoch /\
    messages (fst (dispatchMessages env timeout self))
      = messages (processed lines self) /\
    (forall data,
       env_getResponse env (calls self) (Some 2) (Some timeout) = Return data ->
       lines `prefix_of` data).
Proof.
  intros Hepoch. unfold dispatchMessages, bind, getResponse, pause.
  destruct (env_getResponse env (calls self) (Some 2) (Some timeout)) as [data|e] eqn:Hread.
  - cbn [fst snd].
    destruct (env_pause env _) as [[]|e].
    + set (s := set_calls _ (set_calls _ self)).
      destruct (for_each_processed data s) as (lines & Hpre & Hst & _).
      assert (Hs : _lastTimerReset s = Some epoch) by exact Hepoch.
      destruct (processed_history epoch lines s Hs) as [He Hm].
      destruct (processed_history epoch lines self Hepoch) as [_ Hm'].
      exists lines. rewrite Hst. split; [exact He |].
      split; [rewrite Hm, Hm'; reflexivity |].
      intros data' Hdata'. injection Hdata' as <-. exact Hpre.
    + exists []. split; [exact Hepoch |]. split; [reflexivity |].
      intros data' _. apply prefix_nil.
  - exists []. split; [exact Hepoch |]. split; [reflexivity |].
    intros data' Hdata'. discriminate.
Qed.

End HistoryTheorem.



(** ** The registry: [addDevicesFromSpec] *)

Section SpecFacts.

Import Manager.

Context {Device : Type}.

(** An entry without a name, on a manager without the attribute [devices]:
    the loop condition raises before any name is chosen. *)
Lemma addDevicesFromSpec_item_unnamed
    (methods : gmap string (AddMethod Device)) (self : DeviceManager Device)
    (item : Item) (ioType : Value) :
  devices self = None ->
  item !! "type" = Some ioType ->
  item !! "name" = None ->
  addDevicesFromSpec_item methods item self = (self, Raise (AttributeError "devices")).
Proof.
  intros Hdev Htype Hname.
  unfold addDevicesFromSpec_item, bind, lift, pop, getattr_devices.
  rewrite Htype. rewrite lookup_delete_ne by discriminate. rewrite Hname.
  rewrite bool_decide_eq_false_2 by (intros [? ?]; discriminate).
  rewrite Hdev. reflexivity.
Qed.

(** A named entry of unregistered type: the table lookup raises KeyError. *)
Lemma addDevicesFromSpec_item_unregistered
    (methods : gmap string (AddMethod Device)) (self : DeviceManager Device)
    (item : Item) (ioType name : Value) :
  item !! "type" = Some ioType ->
  item !! "name" = Some name ->
  unregistered methods ioType ->
  addDevicesFromSpec_item methods item self = (self, Raise (KeyError ioType)).
Proof.
  intros Htype Hname Hun.
  unfold addDevicesFromSpec_item, bind, lift, pop.
  rewrite Htype. rewrite lookup_delete_ne by discriminate. rewrite Hname.
  rewrite bool_decide_eq_true_2 by eauto.
  destruct ioType as [key | z]; [| reflexivity].
  unfold unregistered, AddMethod in *. rewrite Hun. reflexivity.
Qed.

End SpecFacts.

(** C3 fails on the code: for a spec whose first entry carries a type and
    no name, on a manager as the class creates it (no attribute [devices]),
    [addDevicesFromSpec] raises AttributeError when it evaluates
    [self.devices]; no name is assigned, no constructor is called, whatever the
    table holds, and a second unnamed entry is never reached. *)
Theorem unnamed_entries_fault
    {Device : Type} (methods : gmap string (Manager.AddMethod Device))
    (self : Manager.DeviceManager Device)
    (item1 item2 : Manager.Item) (rest : list Manager.Item) (ioType : Value) :
  Manager.devices self = None ->
  item1 !! "type" = Some ioType -> item1 !! "name" = None ->
  item2 !! "type" = Some ioType -> item2 !! "name" = None ->
  Manager.addDevicesFromSpec methods (item1 :: item2 :: rest) self
    = (self, Raise (AttributeError "devices")).
Proof.
  intros Hdev Htype1 Hname1 _ _.
  unfold Manager.addDevicesFromSpec. simpl. unfold bind at 1.
  rewrite (addDevicesFromSpec_item_unnamed methods self item1 ioType Hdev Htype1 Hname1).
  reflexivity.
Qed.

(** Two unnamed entries of type ["TPad"] on the module's manager [mgr]. *)
Lemma unnamed_entries_fault_witness :
  let item : Manager.Item := {[ "type" := VStr "TPad" ]} in
  Manager.addDevicesFromSpec TPad_table [item; item] Manager.mgr
    = (Manager.mgr, Raise (AttributeError "devices")).
Proof.
  intros item.
  apply (unnamed_entries_fault TPad_table Manager.mgr item item [] (VStr "TPad"));
    reflexivity.
Defined.

(** C8, as stated, fails: the second entry of this spec has a type without a
    registered constructor, and the call fails with the TypeError of the first
    entry, not with a KeyError for the unknown type. *)
Lemma unknown_type_not_reached :
  let pad : Manager.Item :=
    {[ "type" := VStr "TPad"; "name" := VStr "pad"; "port" := VStr "COM3" ]} in
  let other : Manager.Item := {[ "type" := VStr "Scanner"; "name" := VStr "s" ]} in
  TPad_table !! "Scanner" = None /\
  Manager.addDevicesFromSpec TPad_table [pad; other] Manager.mgr
    = (Manager.mgr, Raise TypeError) /\
  Raise (A := unit) TypeError <> Raise (KeyError (VStr "Scanner")).
Proof. repeat split; try (vm_compute; reflexivity). discriminate. Qed.

(** C8, amended.  When the entries before it are constructed without a raise,
    an entry that carries an explicit name and whose type has no constructor
    in the table makes [addDevicesFromSpec] raise, to its caller, the KeyError
    of the table lookup for that type; the entries after it are not processed
    and the manager is left as the earlier entries left it. *)
Theorem unknown_type_raises
    {Device : Type} (methods : gmap string (Manager.AddMethod Device))
    (self after : Manager.DeviceManager Device)
    (pre post : list Manager.Item) (item : Manager.Item) (ioType name : Value) :
  Manager.addDevicesFromSpec methods pre self = (after, Return tt) ->
  item !! "type" = Some ioType ->
  item !! "name" = Some name ->
  unregistered methods ioType ->
  Manager.addDevicesFromSpec methods (pre ++ item :: post) self
    = (after, Raise (KeyError ioType)).
Proof.
  intros Hpre Htype Hname Hun. unfold Manager.addDevicesFromSpec in *.
  rewrite for_each_app, Hpre. simpl. unfold bind at 1.
  rewrite (addDevicesFromSpec_item_unregistered methods after item ioType name
             Htype Hname Hun).
  reflexivity.
Qed.

Lemma unknown_type_raises_witness :
  let other : Manager.Item := {[ "type" := VStr "Scanner"; "name" := VStr "s" ]} in
  let pad : Manager.Item :=
    {[ "type" := VStr "TPad"; "name" := VStr "pad"; "port" := VStr "COM3" ]} in
  Manager.addDevicesFromSpec TPad_table [other; pad] Manager.mgr
    = (Manager.mgr, Raise (KeyError (VStr "Scanner"))).
Proof.
  intros other pad.
  apply (unknown_type_raises TPad_table Manager.mgr Manager.mgr [] [pad] other
           (VStr "Scanner") (VStr "s")); reflexivity.
Defined.

(** ** The naming loop terminates within its bound *)

Section NameLoop.

Import Manager.

Lemma pretty_N_go_nonempty (x : N) (s : string) :
  s <> EmptyString -> pretty_N_go x s <> EmptyString.
Proof.
  revert s. induction (N.lt_wf_0 x) as [x _ IH]; intros s Hs.
  destruct (decide (x = 0)%N) as [-> | Hx].
  - rewrite pretty_N_go_0. exact Hs.
  - rewrite pretty_N_go_step by lia. apply IH; [| discriminate].
    apply N.div_lt; lia.
Qed.

Lemma pretty_Z_nonempty (i : Z) : pretty i <> EmptyString.
Proof.
  assert (Hpos : forall p : positive, pretty p <> EmptyString).
  { intros p. unfold pretty, pretty_positive, pretty, pretty_N.
    rewrite decide_False by discriminate.
    rewrite pretty_N_go_step by lia. apply pretty_N_go_nonempty. discriminate. }
  destruct i as [|p|p]; unfold pretty, pretty_Z.
  - discriminate.
  - apply Hpos.
  - discriminate.
Qed.

Lemma append_nonempty_neq (s p : string) : p <> EmptyString -> s +:+ p <> s.
Proof.
  intros Hp Heq. apply Hp.
  apply (String.app_inj s). rewrite Heq. clear.
  induction s as [|a s IH]; [reflexivity |].
  change (String a s = String a (s +:+ "")). f_equal. exact IH.
Qed.

(** The candidates are pairwise distinct. *)
Lemma candidate_inj (ioType : Value) (i j : Z) :
  candidate ioType i = candidate ioType j -> i = j.
Proof.
  unfold candidate. destruct (decide (i = 0)) as [-> | Hi], (decide (j = 0)) as [-> | Hj].
  - reflexivity.
  - intros H. destruct ioType as [s | z]; [| discriminate].
    simpl in H. injection H as H. symmetry in H.
    apply append_nonempty_neq in H; [contradiction | apply pretty_Z_nonempty].
  - intros H. destruct ioType as [s | z]; [| discriminate].
    simpl in H. injection H as H.
    apply append_nonempty_neq in H; [contradiction | apply pretty_Z_nonempty].
  - intros H. injection H as H. apply String.app_inj in H.
    apply (inj pretty). exact H.
Qed.

(** The loop returns one of the candidates not yet tried. *)
Lemma name_loop_candidate (fuel : nat) (ioType : Value) (names : list Value) (i : Z) :
  exists j, i <= j /\ name_loop fuel ioType names i = candidate ioType j.
Proof.
  revert i. induction fuel as [|fuel IH]; intros i; simpl.
  - exists i. split; [lia |]. destruct (bool_decide _); reflexivity.
  - destruct (bool_decide _).
    + destruct (IH (i + 1)) as (j & Hj & Heq). exists j. split; [lia | exact Heq].
    + exists i. split; [lia | reflexivity].
Qed.

(** The loop looks only at the membership of the candidates it tries. *)
Lemma name_loop_ext (fuel : nat) (ioType : Value) (names names' : list Value) (i : Z) :
  (forall j, i <= j -> candidate ioType j ∈ names <-> candidate ioType j ∈ names') ->
  name_loop fuel ioType names i = name_loop fuel ioType names' i.
Proof.
  revert i. induction fuel as [|fuel IH]; intros i Hsame; simpl.
  - rewrite (bool_decide_ext _ _ (Hsame i (Z.le_refl i))). reflexivity.
  - rewrite (bool_decide_ext _ _ (Hsame i (Z.le_refl i))).
    rewrite (IH (i + 1)); [reflexivity |]. intros j Hj. apply Hsame. lia.
Qed.

Lemma name_loop_fresh_from (fuel : nat) (ioType : Value) (names : list Value) (i : Z) :
  (length names <= fuel)%nat -> name_loop fuel ioType names i ∉ names.
Proof.
  revert names i. induction fuel as [|fuel IH]; intros names i Hlen; simpl.
  - destruct names; [| simpl in Hlen; lia].
    destruct (bool_decide _); apply not_elem_of_nil.
  - destruct (bool_decide_reflect (candidate ioType i ∈ names)) as [Hin | Hout];
      [| exact Hout].
    set (names' := filter (fun n => n <> candidate ioType i) names).
    assert (Hsame : forall j, i + 1 <= j ->
              candidate ioType j ∈ names <-> candidate ioType j ∈ names').
    { intros j Hj. unfold names'. rewrite list_elem_of_filter. split.
      - intros H. split; [| exact H]. intros Heq. apply candidate_inj in Heq. lia.
      - intros [_ H]. exact H. }
    rewrite (name_loop_ext fuel ioType names names' (i + 1) Hsame).
    assert (Hlen' : (length names' <= fuel)%nat).
    { pose proof (length_filter_lt (fun n => n <> candidate ioType i) names
                    (candidate ioType i) Hin) as Hlt.
      unfold names'. apply PeanoNat.lt_n_Sm_le. eapply Nat.lt_le_trans; [| exact Hlen].
      apply Hlt. intros Hne. apply Hne. reflexivity. }
    specialize (IH names' (i + 1) Hlen').
    destruct (name_loop_candidate fuel ioType names' (i + 1)) as (j & Hj & Heq).
    rewrite Heq in *. intros Hin'. apply IH. apply Hsame; assumption.
Qed.

(** With the bound [addDevicesFromSpec_item] gives it, the loop ends on a
    name that is not in [self.devices]: the bound is never what stops it. *)
Lemma name_loop_fresh (ioType : Value) (names : list Value) :
  name_loop (S (length names)) ioType names 0 ∉ names.
Proof. apply name_loop_fresh_from. lia. Qed.

End NameLoop.

(** * Further properties *)

(** ** The registry as a whole *)

Section RegistryMore.

Import Manager.

Context {Device Params K : Type} `{EqDecision K}.
Variable __dict__ : Device -> Params.
Variable isSameDevice : Device -> Params -> bool.
Variable ident : Params -> K.
Hypothesis isSameDevice_ident :
  forall obj p, isSameDevice obj p = true <-> ident (__dict__ obj) = ident p.

Lemma register_all_items (ds : list Device) (self : DeviceManager Device) :
  items (fold_left (registerDevice __dict__ isSameDevice) ds self) =
  items self ++
    fresh_devices (fun d => ident (__dict__ d)) (identities __dict__ ident self) ds.
Proof.
  revert self. induction ds as [|d ds IH]; intros self; simpl.
  - rewrite app_nil_r. reflexivity.
  - rewrite IH. unfold registerDevice.
    pose proof (registerDevice_scan_ident __dict__ isSameDevice ident
                  isSameDevice_ident self d) as Hscan.
    destruct (registerDevice_scan __dict__ isSameDevice (items self) d).
    + rewrite decide_True by (apply Hscan; reflexivity). reflexivity.
    + rewrite decide_False by (intros Hin; apply Hscan in Hin; discriminate).
      unfold append, identities. simpl. rewrite map_app, <- app_assoc. reflexivity.
Qed.

Lemma register_all_devices (ds : list Device) (self : DeviceManager Device) :
  devices (fold_left (registerDevice __dict__ isSameDevice) ds self) = devices self.
Proof.
  revert self. induction ds as [|d ds IH]; intros self; simpl; [reflexivity |].
  rewrite IH. unfold registerDevice.
  destruct (registerDevice_scan __dict__ isSameDevice (items self) d); reflexivity.
Qed.

Lemma register_all_NoDup (ds : list Device) (self : DeviceManager Device) :
  NoDup (identities __dict__ ident self) ->
  NoDup (identities __dict__ ident (fold_left (registerDevice __dict__ isSameDevice) ds self)).
Proof.
  revert self. induction ds as [|d ds IH]; intros self Hnd; simpl; [exact Hnd |].
  apply IH.
  apply (registerDevice_identities __dict__ isSameDevice ident isSameDevice_ident self d Hnd).
Qed.

End RegistryMore.

(** X1.  Registering a sequence of devices, one [registerDevice] after the
    other, keeps the registered devices where they are and appends, in order,
    the first device of each identity that was not registered before: later
    devices of an identity already seen are dropped.  The registry never
    comes to hold two devices of one identity. *)
Theorem register_all_first_occurrences
    {Device Params K : Type} `{EqDecision K}
    (__dict__ : Device -> Params) (isSameDevice : Device -> Params -> bool)
    (ident : Params -> K) (self : Manager.DeviceManager Device) (ds : list Device) :
  (forall obj p, isSameDevice obj p = true <-> ident (__dict__ obj) = ident p) ->
  let after := fold_left (Manager.registerDevice __dict__ isSameDevice) ds self in
  Manager.items after =
    Manager.items self ++
      fresh_devices (fun d => ident (__dict__ d)) (identities __dict__ ident self) ds /\
  Manager.items self `prefix_of` Manager.items after /\
  Manager.devices after = Manager.devices self /\
  (NoDup (identities __dict__ ident self) -> NoDup (identities __dict__ ident after)).
Proof.
  intros Hident after.
  assert (Hitems := register_all_items __dict__ isSameDevice ident Hident ds self).
  fold after in Hitems. split; [exact Hitems |]. split; [| split].
  - rewrite Hitems. apply prefix_app_r. reflexivity.
  - apply register_all_devices.
  - apply register_all_NoDup. exact Hident.
Qed.

(** Four devices on three ports: the second device of port 1 and the second
    of port 2 are dropped. *)
Lemma register_all_first_occurrences_witness :
  let dict := fun d : string * Z => d in
  let same := fun (obj p : string * Z) => bool_decide (snd obj = snd p) in
  Manager.items
    (fold_left (Manager.registerDevice dict same)
       [("a", 1); ("b", 2); ("c", 1); ("d", 2); ("e", 3)] Manager.mgr)
  = [("a", 1); ("b", 2); ("e", 3)].
Proof.
  intros dict same.
  destruct (register_all_first_occurrences dict same snd Manager.mgr
              [("a", 1); ("b", 2); ("c", 1); ("d", 2); ("e", 3)]) as (Hitems & _).
  - intros obj p. unfold same. apply bool_decide_eq_true.
  - exact Hitems.
Defined.

(** ** Spec entries with a name *)

Section SpecMore.

Import Manager.

Context {Device : Type}.

(** A named entry of a registered type hands the name and the other keys to
    the constructor. *)
Lemma addDevicesFromSpec_item_named
    (methods : gmap string (AddMethod Device)) (fcn : AddMethod Device)
    (self : DeviceManager Device) (item : Item) (key : string) (name : Value) :
  item !! "type" = Some (VStr key) ->
  item !! "name" = Some name ->
  methods !! key = Some fcn ->
  addDevicesFromSpec_item methods item self
    = fcn name (delete "name" (delete "type" item)) self.
Proof.
  intros Htype Hname Hfcn.
  unfold addDevicesFromSpec_item, bind, lift, pop.
  rewrite Htype. rewrite lookup_delete_ne by discriminate. rewrite Hname.
  rewrite bool_decide_eq_true_2 by eauto.
  unfold AddMethod in *. rewrite Hfcn. reflexivity.
Qed.

(** A call that leaves a required parameter without a value is refused. *)
Lemma bind_call_missing (required optional : list string) (kwargs : Item) (p : string) :
  p ∈ required -> kwargs !! p = None ->
  bind_call required optional kwargs = Raise TypeError.
Proof.
  intros Hin Hnone. unfold bind_call.
  destruct (forallb _ (elements (dom kwargs))); [| reflexivity].
  destruct (forallb _ required) eqn:Hreq; [| reflexivity].
  rewrite forallb_forall in Hreq.
  apply list_elem_of_In in Hin. specialize (Hreq p Hin).
  apply bool_decide_eq_true in Hreq. rewrite Hnone in Hreq.
  destruct Hreq as [? Hreq]. discriminate.
Qed.

(** A call whose keywords all name parameters, none of them required, is
    accepted. *)
Lemma bind_call_optional (optional : list string) (kwargs : Item) :
  (forall k, is_Some (kwargs !! k) -> k ∈ optional) ->
  bind_call [] optional kwargs = Return tt.
Proof.
  intros Hkeys. unfold bind_call. simpl.
  rewrite (proj2 (forallb_forall _ _)); [reflexivity |].
  intros k Hk. apply bool_decide_eq_true. apply Hkeys.
  apply list_elem_of_In, elem_of_elements, elem_of_dom in Hk. exact Hk.
Qed.

End SpecMore.

(** X2.  For an entry that carries a name and whose type has a constructor in
    the table, [addDevicesFromSpec] calls that constructor with the name as
    its positional argument and with the entry's other keys as keywords: the
    keys [type] and [name] are taken out and every other key is passed on
    unchanged.  A constructor registered last under a type is the one
    called. *)
Theorem named_entry_calls_constructor
    {Device : Type} (methods : gmap string (Manager.AddMethod Device))
    (fcn : Manager.AddMethod Device) (self : Manager.DeviceManager Device)
    (item : Manager.Item) (key : string) (name : Value) :
  item !! "type" = Some (VStr key) ->
  item !! "name" = Some name ->
  let kwargs := delete "name" (delete "type" item) in
  (methods !! key = Some fcn ->
   Manager.addDevicesFromSpec_item methods item self = fcn name kwargs self) /\
  Manager.addDevicesFromSpec_item (Manager.deviceAddMethod key fcn methods) item self
    = fcn name kwargs self /\
  kwargs !! "type" = None /\
  kwargs !! "name" = None /\
  (forall k, k <> "type" -> k <> "name" -> kwargs !! k = item !! k).
Proof.
  intros Htype Hname kwargs. split; [| split; [| split; [| split]]].
  - intros Hfcn.
    exact (addDevicesFromSpec_item_named methods fcn self item key name Htype Hname Hfcn).
  - apply (addDevicesFromSpec_item_named _ fcn self item key name Htype Hname).
    unfold Manager.deviceAddMethod. apply lookup_insert_eq.
  - unfold kwargs. rewrite lookup_delete_ne by discriminate. apply lookup_delete_eq.
  - unfold kwargs. apply lookup_delete_eq.
  - intros k Hk1 Hk2. unfold kwargs.
    rewrite lookup_delete_ne by congruence. apply lookup_delete_ne. congruence.
Qed.

Lemma named_entry_calls_constructor_witness :
  let item : Manager.Item :=
    {[ "type" := VStr "Serial"; "name" := VStr "pump"; "port" := VStr "COM3" ]} in
  Manager.addDevicesFromSpec_item
    (Manager.deviceAddMethod "Serial" recording_method TPad_table) item Manager.mgr
  = ({| Manager.items := []; Manager.devices := Some [VStr "pump"; VStr "COM3"] |},
     Return tt).
Proof.
  intros item.
  destruct (named_entry_calls_constructor TPad_table recording_method Manager.mgr item
              "Serial" (VStr "pump") eq_refl eq_refl) as (_ & Hcall & _).
  rewrite Hcall. vm_compute. reflexivity.
Defined.

(** X3.  With the table the class body builds, a named entry of type Mouse,
    Microphone, Camera, Serial or TPad always fails with TypeError before the
    method body runs: the name of the entry is bound to [self], and the
    parameter [name] these methods require is never among the keywords.  A
    named Keyboard entry runs the method body exactly when its other keys
    are among [backend] and [device]. *)
Theorem class_table_named_entries
    {Device : Type}
    (method_body : string -> Value -> Manager.Item -> M (Manager.DeviceManager Device) unit)
    (self : Manager.DeviceManager Device)
    (item : Manager.Item) (key : string) (name : Value) :
  item !! "type" = Some (VStr key) ->
  item !! "name" = Some name ->
  let kwargs := delete "name" (delete "type" item) in
  (key ∈ ["Mouse"; "Microphone"; "Camera"; "Serial"; "TPad"] ->
   Manager.addDevicesFromSpec_item (Manager.class_deviceAddMethods method_body) item self
     = (self, Raise TypeError)) /\
  (key = "Keyboard" ->
   (forall k, is_Some (kwargs !! k) -> k ∈ ["backend"; "device"]) ->
   Manager.addDevicesFromSpec_item (Manager.class_deviceAddMethods method_body) item self
     = method_body "addKeyboard" name kwargs self) /\
  (key = "Keyboard" ->
   (exists k, is_Some (kwargs !! k) /\ k ∉ ["backend"; "device"]) ->
   Manager.addDevicesFromSpec_item (Manager.class_deviceAddMethods method_body) item self
     = (self, Raise TypeError)).
Proof.
  intros Htype Hname kwargs.
  assert (Hnoname : kwargs !! "name" = None) by apply lookup_delete_eq.
  split; [| split].
  - intros Hkey.
    assert (Hmissing : forall fname optional required,
              "name" ∈ required ->
              Manager.add_method method_body fname required optional name kwargs self
              = (self, Raise TypeError)).
    { intros fname optional required Hin. unfold Manager.add_method, bind, lift.
      rewrite (bind_call_missing required optional kwargs "name" Hin Hnoname).
      reflexivity. }
    repeat (apply elem_of_cons in Hkey as [-> | Hkey]); [| | | | | inversion Hkey].
    + rewrite (addDevicesFromSpec_item_named (Manager.class_deviceAddMethods method_body) (Manager.addMouse method_body)
                 self item "Mouse" name Htype Hname eq_refl).
      apply Hmissing. left.
    + rewrite (addDevicesFromSpec_item_named (Manager.class_deviceAddMethods method_body) (Manager.addMicrophone method_body)
                 self item "Microphone" name Htype Hname eq_refl).
      apply Hmissing. left.
    + rewrite (addDevicesFromSpec_item_named (Manager.class_deviceAddMethods method_body) (Manager.addCamera method_body)
                 self item "Camera" name Htype Hname eq_refl).
      apply Hmissing. left.
    + rewrite (addDevicesFromSpec_item_named (Manager.class_deviceAddMethods method_body) (Manager.addSerialDevice method_body)
                 self item "Serial" name Htype Hname eq_refl).
      apply Hmissing. left.
    + rewrite (addDevicesFromSpec_item_named (Manager.class_deviceAddMethods method_body) Manager.addTPad
                 self item "TPad" name Htype Hname eq_refl).
      unfold Manager.addTPad, bind, lift.
      rewrite (bind_call_missing ["name"; "port"] [] _ "name");
        [reflexivity | left | exact Hnoname].
  - intros -> Hkeys.
    rewrite (addDevicesFromSpec_item_named (Manager.class_deviceAddMethods method_body) (Manager.addKeyboard method_body)
               self item "Keyboard" name Htype Hname eq_refl).
    unfold Manager.addKeyboard, Manager.add_method, bind, lift.
    fold kwargs. rewrite (bind_call_optional _ kwargs Hkeys). reflexivity.
  - intros -> (k & Hk & Hout).
    rewrite (addDevicesFromSpec_item_named (Manager.class_deviceAddMethods method_body) (Manager.addKeyboard method_body)
               self item "Keyboard" name Htype Hname eq_refl).
    unfold Manager.addKeyboard, Manager.add_method, bind, lift, Manager.bind_call.
    fold kwargs.
    destruct (forallb _ (elements (dom kwargs))) eqn:Hall; [| reflexivity].
    exfalso. rewrite forallb_forall in Hall.
    assert (Hin : In k (elements (dom kwargs))).
    { apply list_elem_of_In, elem_of_elements, elem_of_dom. exact Hk. }
    specialize (Hall k Hin). apply bool_decide_eq_true in Hall. exact (Hout Hall).
Qed.

Lemma class_table_named_entries_witness :
  let body : string -> Value -> Manager.Item -> M (Manager.DeviceManager unit) unit :=
    fun fname name kwargs => recording_method name kwargs in
  let mouse : Manager.Item := {[ "type" := VStr "Mouse"; "name" := VStr "m" ]} in
  let keyboard : Manager.Item :=
    {[ "type" := VStr "Keyboard"; "name" := VStr "kb"; "backend" := VStr "ptb" ]} in
  let typo : Manager.Item :=
    {[ "type" := VStr "Keyboard"; "name" := VStr "kb"; "port" := VStr "COM3" ]} in
  Manager.addDevicesFromSpec_item (Manager.class_deviceAddMethods body) mouse Manager.mgr
    = (Manager.mgr, Raise TypeError) /\
  Manager.addDevicesFromSpec_item (Manager.class_deviceAddMethods body) keyboard Manager.mgr
    = body "addKeyboard" (VStr "kb") {[ "backend" := VStr "ptb" ]} Manager.mgr /\
  Manager.addDevicesFromSpec_item (Manager.class_deviceAddMethods body) typo Manager.mgr
    = (Manager.mgr, Raise TypeError).
Proof.
  intros body mouse keyboard typo. split; [| split].
  - destruct (class_table_named_entries body Manager.mgr mouse "Mouse" (VStr "m")
                eq_refl eq_refl) as (Hfail & _).
    apply Hfail. left.
  - destruct (class_table_named_entries body Manager.mgr keyboard "Keyboard" (VStr "kb")
                eq_refl eq_refl) as (_ & Hcall & _).
    rewrite Hcall; [vm_compute; reflexivity | reflexivity |].
    intros k [v Hk]. vm_compute in Hk.
    destruct (decide (k = "backend")) as [-> | Hne]; [left |].
    exfalso. revert Hk. 
    change (({[ "backend" := VStr "ptb" ]} : Manager.Item) !! k = Some v -> False).
    rewrite lookup_singleton_ne by congruence. discriminate.
  - destruct (class_table_named_entries body Manager.mgr typo "Keyboard" (VStr "kb")
                eq_refl eq_refl) as (_ & _ & Hfail).
    apply Hfail; [reflexivity |]. exists "port". split.
    + exists (VStr "COM3"). vm_compute. reflexivity.
    + intros Hin. repeat (apply elem_of_cons in Hin as [Hin | Hin]; [discriminate |]).
      inversion Hin.
Defined.

(** ** Spec entries without a name *)

Section NamingMore.

Import Manager.

(** The loop stops at the first candidate that is free: all the candidates
    it went past are taken. *)
Lemma name_loop_least (fuel : nat) (ioType : Value) (names : list Value) (i : Z) :
  exists j, i <= j /\
    name_loop fuel ioType names i = candidate ioType j /\
    forall i', i <= i' < j -> candidate ioType i' ∈ names.
Proof.
  revert i. induction fuel as [|fuel IH]; intros i; simpl.
  - exists i. split; [lia |]. split; [destruct (bool_decide _); reflexivity |].
    intros i' Hi'. lia.
  - destruct (bool_decide_reflect (candidate ioType i ∈ names)) as [Hin | Hout].
    + destruct (IH (i + 1)) as (j & Hj & Heq & Hbelow).
      exists j. split; [lia |]. split; [exact Heq |].
      intros i' Hi'. destruct (decide (i' = i)) as [-> | Hne]; [exact Hin |].
      apply Hbelow. lia.
    + exists i. split; [lia |]. split; [reflexivity |]. intros i' Hi'. lia.
Qed.

End NamingMore.

(** X4.  On a manager that has the attribute [devices], an entry without a
    name and of a registered type is constructed under the first free name
    among the type itself, the type followed by 1, by 2, and so on: the name
    is not in [devices], every candidate before it is, and the naming loop
    always ends.  The constructor gets this name and the entry's keys other
    than [type]. *)
Theorem unnamed_entry_first_free_name
    {Device : Type} (methods : gmap string (Manager.AddMethod Device))
    (fcn : Manager.AddMethod Device) (self : Manager.DeviceManager Device)
    (item : Manager.Item) (key : string) (names : list Value) :
  Manager.devices self = Some names ->
  item !! "type" = Some (VStr key) ->
  item !! "name" = None ->
  methods !! key = Some fcn ->
  exists j, 0 <= j /\
    (Manager.addDevicesFromSpec_item methods item self
     = fcn (Manager.candidate (VStr key) j) (delete "type" item) self) /\
    (Manager.candidate (VStr key) j ∉ names) /\
    (forall i, 0 <= i < j -> Manager.candidate (VStr key) i ∈ names) /\
    (VStr key ∉ names -> j = 0).
Proof.
  intros Hdev Htype Hname Hfcn.
  destruct (name_loop_least (S (length names)) (VStr key) names 0)
    as (j & Hj & Heq & Hbelow).
  exists j. split; [exact Hj |].
  pose proof (name_loop_fresh (VStr key) names) as Hfresh. rewrite Heq in Hfresh.
  split; [| split; [exact Hfresh | split; [exact Hbelow |]]].
  - unfold Manager.addDevicesFromSpec_item, bind, lift, Manager.pop,
      Manager.getattr_devices, ret.
    rewrite Htype. rewrite lookup_delete_ne by discriminate. rewrite Hname.
    rewrite bool_decide_eq_false_2 by (intros [? ?]; discriminate).
    rewrite Hdev. rewrite Heq. unfold Manager.AddMethod in *. rewrite Hfcn. reflexivity.
  - intros Hfree. destruct (decide (j = 0)) as [-> | Hne]; [reflexivity |].
    exfalso. apply Hfree. apply (Hbelow 0). lia.
Qed.

(** With ["Serial"] and ["Serial1"] taken, the entry is named ["Serial2"]. *)
Lemma unnamed_entry_first_free_name_witness :
  let self := {| Manager.items := @nil unit;
                 Manager.devices := Some [VStr "Serial"; VStr "Serial1"] |} in
  let item : Manager.Item := {[ "type" := VStr "Serial"; "port" := VStr "COM3" ]} in
  exists j, 0 <= j /\
    (Manager.addDevicesFromSpec_item
       (Manager.deviceAddMethod "Serial" recording_method TPad_table) item self
     = recording_method (Manager.candidate (VStr "Serial") j) (delete "type" item) self) /\
    Manager.candidate (VStr "Serial") j ∉ [VStr "Serial"; VStr "Serial1"].
Proof.
  intros self item.
  destruct (unnamed_entry_first_free_name
              (Manager.deviceAddMethod "Serial" recording_method TPad_table)
              recording_method self item "Serial" [VStr "Serial"; VStr "Serial1"]
              eq_refl eq_refl eq_refl eq_refl) as (j & Hj & Hcall & Hfree & _).
  exists j. split; [exact Hj |]. split; [exact Hcall | exact Hfree].
Defined.

(** ** Serial ports *)

Section PortsMore.

Import Manager.

Context {Info : Type}.
Variable name : Info -> string.

Lemma getSerialDevices_fold (comports : list Info) (spec : gmap string Info) (n : string) :
  fold_left (fun spec info => <[name info := info]> spec) comports spec !! n =
  match last (filter (fun info => name info = n) comports) with
  | Some info => Some info
  | None => spec !! n
  end.
Proof.
  revert spec. induction comports as [|info comports IH]; intros spec; simpl.
  - reflexivity.
  - rewrite IH. rewrite filter_cons.
    destruct (decide (name info = n)) as [Heq | Hne].
    + rewrite last_cons.
      destruct (last (filter (fun info0 => name info0 = n) comports)); [reflexivity |].
      rewrite <- Heq. apply lookup_insert_eq.
    + destruct (last (filter (fun info0 => name info0 = n) comports)); [reflexivity |].
      apply lookup_insert_ne. exact Hne.
Qed.

End PortsMore.

(** X5.  [getSerialDevices] maps every listed port name to the port info
    listed last under that name, and has no other key. *)
Theorem getSerialDevices_last_wins
    {Info : Type} (name : Info -> string) (comports : list Info) (n : string) :
  Manager.getSerialDevices name comports !! n
    = last (filter (fun info => name info = n) comports) /\
  (is_Some (Manager.getSerialDevices name comports !! n) <-> n ∈ map name comports).
Proof.
  assert (Hget : Manager.getSerialDevices name comports !! n
                 = last (filter (fun info => name info = n) comports)).
  { unfold Manager.getSerialDevices. rewrite getSerialDevices_fold.
    destruct (last _); [reflexivity | apply lookup_empty]. }
  split; [exact Hget |]. rewrite Hget. split.
  - intros [info Hlast]. apply last_Some_elem_of in Hlast.
    apply list_elem_of_filter in Hlast as [Hname Hin].
    apply list_elem_of_fmap. exists info. split; [symmetry; exact Hname | exact Hin].
  - intros Hin. apply list_elem_of_fmap in Hin as (info & -> & Hin).
    destruct (last (filter (fun info0 => name info0 = name info) comports)) eqn:Hl;
      [eauto |].
    apply last_None in Hl.
    assert (Hin' : info ∈ filter (fun info0 => name info0 = name info) comports).
    { apply list_elem_of_filter. split; [reflexivity | exact Hin]. }
    rewrite Hl in Hin'. inversion Hin'.
Qed.

Lemma getSerialDevices_last_wins_witness :
  Manager.getSerialDevices fst [("COM3", 1); ("COM4", 2); ("COM3", 3)] !! "COM3"
    = Some ("COM3", 3) /\
  is_Some (Manager.getSerialDevices fst [("COM3", 1); ("COM4", 2); ("COM3", 3)] !! "COM4").
Proof.
  destruct (getSerialDevices_last_wins fst [("COM3", 1); ("COM4", 2); ("COM3", 3)] "COM3")
    as [Hget _].
  destruct (getSerialDevices_last_wins fst [("COM3", 1); ("COM4", 2); ("COM3", 3)] "COM4")
    as [_ Hdom].
  split; [rewrite Hget; reflexivity |].
  apply Hdom. right. left.
Defined.

(** ** The wire grammar, both ways *)

Section GrammarMore.

Import tpad.

Lemma channel_chars (c : ascii) :
  in_charset (class_of_keys channelCodes) c = true <->
  c ∈ ["A"; "C"; "M"; "T"]%char.
Proof.
  split.
  - intros H. destruct c as [[] [] [] [] [] [] [] []]; try discriminate H;
      repeat first [left | right].
  - intros H. repeat (apply elem_of_cons in H as [-> | H]; [reflexivity |]).
    inversion H.
Qed.

Lemma state_chars (c : ascii) :
  in_charset (class_of_keys stateCodes) c = true <-> c ∈ ["P"; "R"]%char.
Proof.
  split.
  - intros H. destruct c as [[] [] [] [] [] [] [] []]; try discriminate H;
      repeat first [left | right].
  - intros H. repeat (apply elem_of_cons in H as [-> | H]; [reflexivity |]).
    inversion H.
Qed.

Lemma button_chars (c : ascii) :
  in_charset (class_of_keys buttonCodes) c = true <->
  is_digit c = true \/ c ∈ ["["; "]"]%char.
Proof.
  split.
  - intros H. destruct c as [[] [] [] [] [] [] [] []]; try discriminate H;
      first [left; reflexivity | right; repeat first [left | right]].
  - intros [H | H].
    + destruct c as [[] [] [] [] [] [] [] []]; try discriminate H; reflexivity.
    + repeat (apply elem_of_cons in H as [-> | H]; [reflexivity |]). inversion H.
Qed.

Lemma digit_value_range (c : ascii) : is_digit c = true -> 0 <= digit_value c <= 9.
Proof.
  intros H. destruct c as [[] [] [] [] [] [] [] []]; try discriminate H;
    vm_compute; split; discriminate.
Qed.

End GrammarMore.

(** X6.  For a line of ASCII characters, [re.match(messageFormat, line)]
    succeeds exactly when the line starts with a channel character (A, C, M
    or T), a space, a state character (P or R), a space, a code character
    (one of 0 to 9 or one of the two brackets) and a space.  The groups are
    these three characters and the longest run of the digits 0 to 9 that
    follows, which may be empty; whatever comes after that run is ignored. *)
Theorem grammar_matches_iff (line : string) (gs : list string) :
  isascii line = true ->
  tpad.re_match tpad.messageFormat line = Some gs <->
  exists (c s b : ascii) (ds rest : string),
    line = spaced_line c s b ds rest /\
    gs = [String c EmptyString; String s EmptyString; String b EmptyString; ds] /\
    c ∈ ["A"; "C"; "M"; "T"]%char /\
    s ∈ ["P"; "R"]%char /\
    (tpad.is_digit b = true \/ b ∈ ["["; "]"]%char) /\
    tpad.all_digits ds = true /\
    no_digit_ahead rest.
Proof.
  intros _. split.
  - intros H. destruct (re_match_messageFormat_inv _ _ H)
      as (c & s & b & ds & rest & Hline & Hgs & Hc & Hs & Hb & Hds & Hrest).
    exists c, s, b, ds, rest.
    rewrite <- channel_chars, <- state_chars, <- button_chars. repeat split; assumption.
  - intros (c & s & b & ds & rest & -> & -> & Hc & Hs & Hb & Hds & Hrest).
    apply re_match_spaced_line; try assumption.
    + apply channel_chars. exact Hc.
    + apply state_chars. exact Hs.
    + apply button_chars. exact Hb.
Qed.

(** A line with an empty time and text after it, and a line with a carriage
    return after the time. *)
Lemma grammar_matches_iff_witness :
  tpad.re_match tpad.messageFormat "M R ] later" = Some ["M"; "R"; "]"; ""] /\
  tpad.re_match tpad.messageFormat
    (spaced_line "C" "P" "1" "500" (String "013" EmptyString))
    = Some ["C"; "P"; "1"; "500"].
Proof.
  split.
  - apply (proj2 (grammar_matches_iff "M R ] later" ["M"; "R"; "]"; ""] eq_refl)).
    exists "M"%char, "R"%char, "]"%char, EmptyString, "later".
    repeat split; try reflexivity.
    + right. right. left.
    + right. left.
    + right. right. left.
  - apply (proj2 (grammar_matches_iff
                    (spaced_line "C" "P" "1" "500" (String "013" EmptyString))
                    ["C"; "P"; "1"; "500"] eq_refl)).
    exists "C"%char, "P"%char, "1"%char, "500", (String "013" EmptyString).
    repeat split; try reflexivity.
    + right. left.
    + left.
    + left. reflexivity.
Defined.

(** X7.  On a message of ASCII characters, [splitTPadMessage] returns four
    fields exactly when the grammar matches the message, and then the fields
    joined by single spaces are the start of the message: channel, state and
    code are one character each and the time is a run of the digits 0 to 9
    with no such digit after it.  For every other such message it raises
    AttributeError (from [None.groups]), and it raises nothing else. *)
Theorem splitTPadMessage_round_trip (message : string) :
  isascii message = true ->
  (forall channel state button time,
     tpad.splitTPadMessage message = Return (channel, state, button, time) ->
     exists rest,
       message = channel +:+ " " +:+ state +:+ " " +:+ button +:+ " " +:+ time +:+ rest /\
       String.length channel = 1%nat /\ String.length state = 1%nat /\
       String.length button = 1%nat /\
       tpad.all_digits time = true /\ no_digit_ahead rest) /\
  (forall e, tpad.splitTPadMessage message = Raise e ->
     e = AttributeError "groups" /\ tpad.re_match tpad.messageFormat message = None) /\
  (tpad.re_match tpad.messageFormat message = None ->
   tpad.splitTPadMessage message = Raise (AttributeError "groups")).
Proof.
  intros _. unfold tpad.splitTPadMessage.
  destruct (tpad.re_match tpad.messageFormat message) as [gs|] eqn:Hm.
  - destruct (re_match_messageFormat_inv _ _ Hm)
      as (c & s & b & ds & rest & -> & -> & _ & _ & _ & Hds & Hrest).
    split; [| split].
    + intros channel state button time H. injection H as <- <- <- <-.
      exists rest. repeat split; try assumption; reflexivity.
    + intros e H. discriminate.
    + intros H. discriminate.
  - split; [| split].
    + intros channel state button time H. discriminate.
    + intros e H. injection H as <-. split; reflexivity.
    + reflexivity.
Qed.

Lemma splitTPadMessage_round_trip_witness :
  tpad.splitTPadMessage "T R 7 1250" = Return ("T", "R", "7", "1250") /\
  tpad.splitTPadMessage "T R 7,1250" = Raise (AttributeError "groups").
Proof.
  split; [reflexivity |].
  destruct (splitTPadMessage_round_trip "T R 7,1250" eq_refl) as (_ & _ & Hnone).
  apply Hnone. reflexivity.
Defined.

(** X9.  A line of ASCII characters that the grammar matches and whose code
    is one of the brackets, or whose time field is empty (no digit 0 to 9
    follows the third space), makes [dispatchMessages] raise ValueError (from
    [int] or from [float]) before anything is stored: the driver is left as
    it was, with or without a reset epoch. *)
Theorem conversion_faults
    (c s b : ascii) (ds rest : string) (self : tpad.TPad) :
  isascii (spaced_line c s b ds rest) = true ->
  c ∈ ["A"; "C"; "M"; "T"]%char ->
  s ∈ ["P"; "R"]%char ->
  tpad.all_digits ds = true -> no_digit_ahead rest ->
  (b ∈ ["["; "]"]%char \/ (tpad.is_digit b = true /\ ds = EmptyString)) ->
  tpad.dispatchMessages_line (spaced_line c s b ds rest) self = (self, Raise ValueError).
Proof.
  intros _ Hc Hs Hds Hrest Hbad.
  assert (Hm : tpad.re_match tpad.messageFormat (spaced_line c s b ds rest)
               = Some [String c EmptyString; String s EmptyString;
                       String b EmptyString; ds]).
  { apply re_match_spaced_line; try assumption.
    - apply channel_chars. exact Hc.
    - apply state_chars. exact Hs.
    - apply button_chars. destruct Hbad as [Hb | [Hb _]]; [right | left]; exact Hb. }
  unfold tpad.dispatchMessages_line, tpad.splitTPadMessage. rewrite Hm.
  unfold bind, lift. destruct Hbad as [Hb | [Hb ->]].
  - repeat (apply elem_of_cons in Hb as [-> | Hb]; [reflexivity |]). inversion Hb.
  - rewrite (py_int_digit b Hb). reflexivity.
Qed.

Lemma conversion_faults_witness :
  let self := example_tpad [] (tpad.float_of_Z 100) in
  tpad.dispatchMessages_line "C P [ 500" self = (self, Raise ValueError) /\
  tpad.dispatchMessages_line "C P 1 soon" self = (self, Raise ValueError).
Proof.
  intros self. split.
  - apply (conversion_faults "C" "P" "[" "500" "" self).
    + reflexivity.
    + right. left.
    + left.
    + reflexivity.
    + exact I.
    + left. left.
  - apply (conversion_faults "C" "P" "1" "" "soon" self).
    + reflexivity.
    + right. left.
    + left.
    + reflexivity.
    + reflexivity.
    + right. split; reflexivity.
Defined.

(** ** Commands to the device leave the driver's data alone *)

Section FrameFacts.

Import tpad.

Variable env : Env.

Lemma only_calls_added_refl (self : TPad) : only_calls_added self self.
Proof. unfold only_calls_added. repeat split; reflexivity. Qed.

Lemma only_calls_added_trans (s1 s2 s3 : TPad) :
  only_calls_added s1 s2 -> only_calls_added s2 s3 -> only_calls_added s1 s3.
Proof.
  intros (Hc1 & Hm1 & Hp1 & Hb1 & Hv1) (Hc2 & Hm2 & Hp2 & Hb2 & Hv2).
  unfold only_calls_added. repeat split; try congruence.
  etransitivity; eassumption.
Qed.

(** A relation between the state before and after that every step keeps is
    kept by the sequence of the steps. *)
Lemma bind_keeps {S A B} (R : S -> S -> Prop) (m : M S A) (k : A -> M S B) :
  (forall s1 s2 s3, R s1 s2 -> R s2 s3 -> R s1 s3) ->
  (forall s, R s (fst (m s))) ->
  (forall a s, R s (fst (k a s))) ->
  forall s, R s (fst (bind m k s)).
Proof.
  intros Htrans Hm Hk s. unfold bind. specialize (Hm s).
  destruct (m s) as [s' [a|e]]; simpl in *; [| exact Hm].
  apply (Htrans _ _ _ Hm). apply Hk.
Qed.

Lemma try_pass_keeps {S} (R : S -> S -> Prop) (catches : exn -> bool) (m : M S unit) :
  (forall s, R s (fst (m s))) -> forall s, R s (fst (try_pass catches m s)).
Proof.
  intros Hm s. unfold try_pass. specialize (Hm s).
  destruct (m s) as [s' [[]|e]]; simpl in *; [exact Hm |].
  destruct (catches e); exact Hm.
Qed.

Lemma set_calls_added (self : TPad) (more : list Call) :
  only_calls_added self (set_calls (fun h => h ++ more) self).
Proof.
  unfold only_calls_added, set_calls. simpl. repeat split.
  apply prefix_app_r. reflexivity.
Qed.

Lemma sendMessage_frame (message : string) (self : TPad) :
  only_calls_added self (fst (sendMessage env message self)).
Proof. apply set_calls_added. Qed.

Lemma pause_frame (self : TPad) : only_calls_added self (fst (pause env self)).
Proof. apply set_calls_added. Qed.

Lemma getResponse_frame (length : option Z) (timeout : option spec_float) (self : TPad) :
  only_calls_added self (fst (getResponse env length timeout self)).
Proof. apply set_calls_added. Qed.

Lemma getTime_frame (self : TPad) : only_calls_added self (fst (getTime env self)).
Proof. apply set_calls_added. Qed.

Lemma set_lastTimerReset_frame (v : option spec_float) (self : TPad) :
  only_calls_added self (fst (modify (set_lastTimerReset v) self)).
Proof. unfold only_calls_added. simpl. repeat split; reflexivity. Qed.

Lemma setMode_frame (mode : Z) (self : TPad) :
  only_calls_added self (fst (setMode env mode self)).
Proof.
  revert self. unfold setMode.
  repeat first
    [ apply (bind_keeps only_calls_added _ _ only_calls_added_trans); [| intros ?]
    | apply try_pass_keeps
    | apply sendMessage_frame | apply pause_frame | apply getResponse_frame
    | intros self; apply only_calls_added_refl ].
Qed.

Lemma resetTimer_frame (self : TPad) :
  only_calls_added self (fst (resetTimer env self)).
Proof.
  revert self. unfold resetTimer.
  repeat first
    [ apply setMode_frame | apply sendMessage_frame | apply pause_frame
    | apply getTime_frame | apply set_lastTimerReset_frame
    | apply (bind_keeps only_calls_added _ _ only_calls_added_trans); [| intros ?]
    | intros self; apply only_calls_added_refl ].
Qed.

Lemma isAwake_frame (self : TPad) : only_calls_added self (fst (isAwake env self)).
Proof.
  revert self. unfold isAwake.
  repeat first
    [ apply setMode_frame | apply sendMessage_frame | apply getResponse_frame
    | apply (bind_keeps only_calls_added _ _ only_calls_added_trans); [| intros ?]
    | intros self; apply only_calls_added_refl ].
Qed.

Lemma calibratePhotodiode_frame (level : Z) (self : TPad) :
  only_calls_added self (fst (calibratePhotodiode env level self)).
Proof.
  revert self. unfold calibratePhotodiode.
  repeat first
    [ apply setMode_frame | apply sendMessage_frame | apply getResponse_frame
    | apply (bind_keeps only_calls_added _ _ only_calls_added_trans); [| intros ?]
    | intros self; apply only_calls_added_refl ].
Qed.

(** The reset epoch: any step that only adds calls keeps it. *)
Lemma epoch_trans (s1 s2 s3 : TPad) :
  _lastTimerReset s2 = _lastTimerReset s1 ->
  _lastTimerReset s3 = _lastTimerReset s2 ->
  _lastTimerReset s3 = _lastTimerReset s1.
Proof. congruence. Qed.

Lemma setMode_epoch (mode : Z) (self : TPad) :
  _lastTimerReset (fst (setMode env mode self)) = _lastTimerReset self.
Proof.
  revert self. unfold setMode.
  repeat first
    [ apply (bind_keeps (fun s s' => _lastTimerReset s' = _lastTimerReset s) _ _ epoch_trans);
      [| intros ?]
    | apply (try_pass_keeps (fun s s' => _lastTimerReset s' = _lastTimerReset s))
    | intros self; reflexivity ].
Qed.

Lemma isAwake_epoch (self : TPad) :
  _lastTimerReset (fst (isAwake env self)) = _lastTimerReset self.
Proof.
  revert self. unfold isAwake.
  repeat first
    [ apply setMode_epoch
    | apply (bind_keeps (fun s s' => _lastTimerReset s' = _lastTimerReset s) _ _ epoch_trans);
      [| intros ?]
    | intros self; reflexivity ].
Qed.

Lemma calibratePhotodiode_epoch (level : Z) (self : TPad) :
  _lastTimerReset (fst (calibratePhotodiode env level self)) = _lastTimerReset self.
Proof.
  revert self. unfold calibratePhotodiode.
  repeat first
    [ apply setMode_epoch
    | apply (bind_keeps (fun s s' => _lastTimerReset s' = _lastTimerReset s) _ _ epoch_trans);
      [| intros ?]
    | intros self; reflexivity ].
Qed.

End FrameFacts.

(** X13.  Whatever the serial device and the clock do, faults included,
    [setMode], [resetTimer], [isAwake] and [calibratePhotodiode] only add to
    the calls made: the message history, the three handler dicts (so every
    handler's log and mirrored threshold) stay as they were.  Only
    [resetTimer] can change the reset epoch. *)
Theorem device_commands_frame
    (env : tpad.Env) (mode level : Z) (self : tpad.TPad) :
  (only_calls_added self (fst (tpad.setMode env mode self)) /\
   tpad._lastTimerReset (fst (tpad.setMode env mode self)) = tpad._lastTimerReset self) /\
  only_calls_added self (fst (tpad.resetTimer env self)) /\
  (only_calls_added self (fst (tpad.isAwake env self)) /\
   tpad._lastTimerReset (fst (tpad.isAwake env self)) = tpad._lastTimerReset self) /\
  (only_calls_added self (fst (tpad.calibratePhotodiode env level self)) /\
   tpad._lastTimerReset (fst (tpad.calibratePhotodiode env level self))
     = tpad._lastTimerReset self).
Proof.
  split; [split; [apply setMode_frame | apply setMode_epoch] |].
  split; [apply resetTimer_frame |].
  split; [split; [apply isAwake_frame | apply isAwake_epoch] |].
  split; [apply calibratePhotodiode_frame | apply calibratePhotodiode_epoch].
Qed.

(** ** The driver as constructed *)

Section ConstructedFacts.

Import tpad.

(** The keys of a dict comprehension [{i+1: f(i+1) for i in range(n)}]. *)
Lemma range_dict_is_Some {A} (f : Z -> A) (n code : Z) :
  is_Some ((list_to_map (map (fun i => (i + 1, f (i + 1))) (seqZ 0 n)) : gmap Z A) !! code)
  <-> 1 <= code <= n.
Proof.
  split.
  - intros [x Hx]. apply elem_of_list_to_map_2 in Hx.
    apply list_elem_of_fmap in Hx as (i & Heq & Hi).
    injection Heq as -> _. apply elem_of_seqZ in Hi. lia.
  - intros Hr.
    destruct ((list_to_map (map (fun i => (i + 1, f (i + 1))) (seqZ 0 n)) : gmap Z A)
                !! code) as [x|] eqn:E; [eauto |].
    apply not_elem_of_list_to_map_2 in E. exfalso. apply E.
    apply list_elem_of_fmap. exists (code, f code). split; [reflexivity |].
    apply list_elem_of_fmap. exists (code - 1). split.
    + replace (code - 1 + 1) with code by lia. reflexivity.
    + apply elem_of_seqZ. lia.
Qed.

Lemma choose_node_route (self : TPad) (channel : string) (code : Z) :
  (forall k, is_Some (buttons self !! k) <-> 1 <= k <= 10) ->
  (forall k, is_Some (photodiodes self !! k) <-> 1 <= k <= 2) ->
  (forall k, is_Some (voicekeys self !! k) <-> 1 <= k <= 1) ->
  choose_node self channel code = constructed_route channel code.
Proof.
  intros Hb Hp Hv. unfold choose_node, constructed_route.
  rewrite (bool_decide_ext _ _ (Hb code)), (bool_decide_ext _ _ (Hp code)).
  rewrite (bool_decide_ext _ (code = 1)) by (rewrite Hv; lia).
  destruct (String.eqb_spec channel "A") as [-> | HA]; simpl.
  - destruct (bool_decide (1 <= code <= 10)); reflexivity.
  - destruct (String.eqb_spec channel "C") as [-> | HC]; simpl.
    + destruct (bool_decide (1 <= code <= 2)); reflexivity.
    + destruct (String.eqb channel "M" && bool_decide (code = 1)); reflexivity.
Qed.

Lemma constructed_dicts (env : Env) (history : list Call) :
  let self := fst (TPad__init__ env history) in
  messages self = [] /\
  (forall k, is_Some (buttons self !! k) <-> 1 <= k <= 10) /\
  (forall k, is_Some (photodiodes self !! k) <-> 1 <= k <= 2) /\
  (forall k, is_Some (voicekeys self !! k) <-> 1 <= k <= 1).
Proof.
  intros self. unfold self, TPad__init__.
  destruct (resetTimer_frame env
    {| calls := history; messages := [];
       photodiodes := list_to_map (map (fun i => (i + 1, TPadPhotodiode__init__ (i + 1))) (seqZ 0 2));
       buttons := list_to_map (map (fun i => (i + 1, TPadButton__init__ (i + 1))) (seqZ 0 10));
       voicekeys := list_to_map (map (fun i => (i + 1, TPadVoicekey__init__ (i + 1))) (seqZ 0 1));
       _lastTimerReset := None |}) as (_ & Hm & Hp & Hb & Hv).
  rewrite Hm, Hp, Hb, Hv. cbn [messages photodiodes buttons voicekeys].
  split; [reflexivity |].
  split; [| split]; intros k; apply range_dict_is_Some.
Qed.

End ConstructedFacts.

(** X8.  On a driver as [TPad.__init__] builds it, whatever the serial device
    did during construction, the history is empty and a line is routed by
    channel and code alone: channel A to buttons 1 to 10, channel C to
    photodiodes 1 and 2, channel M to voice key 1, and to no handler
    otherwise.  The code decoded from a line the grammar matches is a single
    digit, 0 to 9, so no line ever reaches button 10, and lines of code 0 or
    of the TTL channel reach no handler. *)
Theorem constructed_routing (env : tpad.Env) (history : list tpad.Call) :
  let self := fst (tpad.TPad__init__ env history) in
  tpad.messages self = [] /\
  (forall channel code,
     tpad.choose_node self channel code = constructed_route channel code) /\
  (forall line c s b t k,
     tpad.re_match tpad.messageFormat line = Some [c; s; b; t] ->
     tpad.py_int b = Return k ->
     0 <= k <= 9 /\
     tpad.choose_node self c k <> Some (tpad.ButtonNode 10) /\
     (k = 0 -> tpad.choose_node self c k = None) /\
     (c = "T" -> tpad.choose_node self c k = None)).
Proof.
  intros self.
  destruct (constructed_dicts env history) as (Hm & Hb & Hp & Hv). fold self in Hm, Hb, Hp, Hv.
  assert (Hroute : forall channel code,
            tpad.choose_node self channel code = constructed_route channel code).
  { intros channel code. apply choose_node_route; assumption. }
  split; [exact Hm |]. split; [exact Hroute |].
  intros line c s b t k Hmatch Hint.
  destruct (re_match_messageFormat_inv _ _ Hmatch)
    as (c' & s' & b' & ds & rest & _ & Hgs & _ & _ & _ & _ & _).
  injection Hgs as -> -> -> ->.
  assert (Hk : 0 <= k <= 9).
  { unfold tpad.py_int in Hint. simpl in Hint.
    destruct (tpad.is_digit b') eqn:Hd; simpl in Hint; [| discriminate].
    injection Hint as <-. change (0 <= tpad.digit_value b' <= 9).
    apply digit_value_range. exact Hd. }
  split; [exact Hk |]. rewrite Hroute. unfold constructed_route.
  split; [| split].
  - destruct (_ && _); [intros H; injection H as H; lia |].
    destruct (_ && _); [discriminate |].
    destruct (_ && _); discriminate.
  - intros ->.
    rewrite !bool_decide_eq_false_2 by lia. rewrite !andb_false_r. reflexivity.
  - intros ->. reflexivity.
Qed.

Lemma constructed_routing_witness :
  let self := example_tpad [] (tpad.float_of_Z 100) in
  tpad.choose_node self "A" 9 = Some (tpad.ButtonNode 9) /\
  tpad.choose_node self "C" 3 = None /\
  tpad.choose_node self "A" 0 = None.
Proof.
  intros self.
  destruct (constructed_routing (example_env [] (tpad.float_of_Z 100)) [])
    as (_ & Hroute & Hline).
  unfold self, example_tpad. split; [| split].
  - rewrite (Hroute "A" 9). reflexivity.
  - rewrite (Hroute "C" 3). reflexivity.
  - destruct (Hline "A P 0 12" "A" "P" "0" "12" 0 eq_refl eq_refl) as (_ & _ & Hzero & _).
    apply Hzero. reflexivity.
Defined.

(** ** What a run of lines leaves in a handler's log *)

Section LogFacts.

Import tpad.

(** One line processed without a raise: handler [key] gets the response
    decoded from the line when the line is for it, and is untouched
    otherwise. *)
Lemma dispatchMessages_line_log
    (key : Z) (epoch : spec_float) (line : string) (self after : TPad)
    (pd : TPadPhotodiode) :
  _lastTimerReset self = Some epoch ->
  photodiodes self !! key = Some pd ->
  dispatchMessages_line line self = (after, Return tt) ->
  exists pd',
    photodiodes after !! key = Some pd' /\
    _lastTimerReset after = Some epoch /\
    number pd' = number pd /\
    photodiode._threshold (base pd') = photodiode._threshold (base pd) /\
    photodiode.messages (base pd') =
      photodiode.messages (base pd) ++
        match photodiode_response epoch (photodiode.getThreshold (base pd)) key line with
        | Some r => [r]
        | None => []
        end.
Proof.
  intros Hepoch Hpd Hrun. unfold photodiode_response.
  destruct (re_match messageFormat line) as [gs|] eqn:Hm.
  2: { rewrite (dispatchMessages_line_unmatched _ _ Hm) in Hrun. injection Hrun as <-.
       exists pd. rewrite app_nil_r. repeat split; assumption. }
  destruct (re_match_messageFormat_inv _ _ Hm)
    as (c & s & b & ds & rest & -> & -> & Hc & Hs & Hb & Hds & Hrest).
  destruct (py_int (String b EmptyString)) as [k|e] eqn:Hk.
  2: { unfold dispatchMessages_line, splitTPadMessage in Hrun. rewrite Hm in Hrun.
       unfold bind, lift in Hrun. rewrite Hk in Hrun. discriminate. }
  destruct (py_float ds) as [ftime|e] eqn:Hf.
  2: { unfold dispatchMessages_line, splitTPadMessage in Hrun. rewrite Hm in Hrun.
       unfold bind, lift in Hrun. rewrite Hk, Hf in Hrun. discriminate. }
  rewrite (dispatchMessages_line_matched _ _ _ _ _ k ftime epoch self Hm Hk Hf Hepoch)
    in Hrun.
  cbv zeta in Hrun. apply channel_chars in Hc. apply state_chars in Hs.
  set (ts := fadd (fdiv ftime (float_of_Z 1000)) epoch) in *.
  set (stored := set_messages (dict_set ts (spaced_line c s b ds rest)) self) in *.
  assert (Hstored : photodiodes stored !! key = Some pd) by exact Hpd.
  assert (Hskip : forall st, st = stored ->
            exists pd', photodiodes st !! key = Some pd' /\
              _lastTimerReset st = Some epoch /\
              number pd' = number pd /\
              photodiode._threshold (base pd') = photodiode._threshold (base pd) /\
              photodiode.messages (base pd') = photodiode.messages (base pd) ++ []).
  { intros st ->. exists pd. rewrite app_nil_r. repeat split; assumption. }
  unfold choose_node in Hrun.
  repeat (apply elem_of_cons in Hc as [-> | Hc]); [| | | | inversion Hc]; simpl in Hrun.
  - (* buttons *)
    destruct (bool_decide (is_Some (buttons self !! k))); simpl in Hrun;
      [discriminate |].
    injection Hrun as <-. apply Hskip. reflexivity.
  - (* optos *)
    destruct (photodiodes self !! k) as [pd0|] eqn:Hpd0.
    + rewrite bool_decide_eq_true_2 in Hrun by eauto. simpl in Hrun.
      rewrite Hpd0 in Hrun. injection Hrun as <-. unfold set_photodiodes. simpl.
      destruct (decide (k = key)) as [-> | Hne].
      * rewrite Hpd in Hpd0. injection Hpd0 as <-.
        rewrite bool_decide_eq_true_2 by reflexivity.
        eexists. split; [apply lookup_insert_eq |].
        split; [exact Hepoch |]. split; [reflexivity |]. split; [reflexivity |].
        simpl. f_equal. f_equal.
        repeat (apply elem_of_cons in Hs as [-> | Hs]); [| | inversion Hs]; reflexivity.
      * rewrite bool_decide_eq_false_2 by exact Hne.
        exists pd. rewrite lookup_insert_ne by exact Hne. rewrite app_nil_r.
        repeat split; assumption.
    + rewrite bool_decide_eq_false_2 in Hrun by (intros [? ?]; discriminate).
      simpl in Hrun. injection Hrun as <-.
      rewrite bool_decide_eq_false_2; [apply Hskip; reflexivity |].
      intros ->. rewrite Hpd in Hpd0. discriminate.
  - (* voice key *)
    destruct (bool_decide (is_Some (voicekeys self !! k))); simpl in Hrun;
      [discriminate |].
    injection Hrun as <-. apply Hskip. reflexivity.
  - (* TTL *)
    injection Hrun as <-. apply Hskip. reflexivity.
Qed.

End LogFacts.

(** X10.  When a run of lines is processed without a raise, each photodiode
    handler ends with its old log followed by the responses decoded from
    exactly the lines of the Optos channel that carry its code, in the order
    the lines were read: none is lost, doubled or reordered.  Each such
    response carries a boolean value (true for state P), the timestamp of its
    line and the handler's threshold, which the run does not change. *)
Theorem handler_log_in_wire_order
    (key : Z) (epoch : spec_float) (data : list string) (self after : tpad.TPad)
    (pd : tpad.TPadPhotodiode) :
  tpad._lastTimerReset self = Some epoch ->
  tpad.photodiodes self !! key = Some pd ->
  for_each tpad.dispatchMessages_line data self = (after, Return tt) ->
  exists pd',
    tpad.photodiodes after !! key = Some pd' /\
    tpad.number pd' = tpad.number pd /\
    photodiode._threshold (tpad.base pd') = photodiode._threshold (tpad.base pd) /\
    photodiode.messages (tpad.base pd') =
      photodiode.messages (tpad.base pd) ++
        omap (photodiode_response epoch (photodiode.getThreshold (tpad.base pd)) key) data.
Proof.
  revert self pd. induction data as [|line data IH]; intros self pd Hepoch Hpd Hrun.
  - simpl in Hrun. injection Hrun as <-. exists pd. simpl. rewrite app_nil_r.
    repeat split; try reflexivity. exact Hpd.
  - simpl in Hrun. unfold bind in Hrun.
    destruct (tpad.dispatchMessages_line line self) as [s1 [[]|e]] eqn:Hline;
      [| discriminate].
    destruct (dispatchMessages_line_log key epoch line self s1 pd Hepoch Hpd Hline)
      as (pd1 & Hpd1 & Hepoch1 & Hnum1 & Hthr1 & Hlog1).
    destruct (IH s1 pd1 Hepoch1 Hpd1 Hrun) as (pd' & Hpd' & Hnum & Hthr & Hlog).
    exists pd'. split; [exact Hpd' |]. split; [congruence |]. split; [congruence |].
    rewrite Hlog, Hlog1. unfold photodiode.getThreshold. rewrite Hthr1.
    rewrite <- app_assoc. f_equal. simpl.
    destruct (photodiode_response epoch (photodiode._threshold (tpad.base pd)) key line);
      reflexivity.
Qed.

(** Three photodiode lines and a TTL line: handler 1 gets the first and the
    last, in that order. *)
Lemma handler_log_in_wire_order_witness :
  let self := example_tpad [] (tpad.float_of_Z 100) in
  let data := ["C P 1 500"; "T P 3 20"; "C P 2 700"; "C R 1 900"] in
  exists pd',
    tpad.photodiodes (fst (for_each tpad.dispatchMessages_line data self)) !! 1 = Some pd' /\
    photodiode.messages (tpad.base pd') =
      [ {| photodiode.t := tpad.timestamp 500 (tpad.float_of_Z 100);
           photodiode.value := photodiode.SBool true;
           photodiode.threshold := None |};
        {| photodiode.t := tpad.timestamp 900 (tpad.float_of_Z 100);
           photodiode.value := photodiode.SBool false;
           photodiode.threshold := None |} ].
Proof.
  intros self data.
  assert (Hrun : for_each tpad.dispatchMessages_line data self
                 = (fst (for_each tpad.dispatchMessages_line data self), Return tt)).
  { vm_compute. reflexivity. }
  destruct (handler_log_in_wire_order 1 (tpad.float_of_Z 100) data self _
              (tpad.TPadPhotodiode__init__ 1) eq_refl eq_refl Hrun)
    as (pd' & Hpd' & _ & _ & Hlog).
  exists pd'. split; [exact Hpd' |]. rewrite Hlog. vm_compute. reflexivity.
Defined.

(** ** The history under any run, faults included *)

Section HistoryMore.

Import tpad.

Lemma history_grows_refl (d : list (spec_float * string)) : history_grows d d.
Proof. unfold history_grows. repeat split; auto. Qed.

Lemma history_grows_trans (d1 d2 d3 : list (spec_float * string)) :
  history_grows d1 d2 -> history_grows d2 d3 -> history_grows d1 d3.
Proof.
  intros (Hg1 & Hw1 & Hf1 & Hl1) (Hg2 & Hw2 & Hf2 & Hl2).
  unfold history_grows. repeat split; auto. lia.
Qed.

Lemma dict_set_length (key : spec_float) (v : string) (d : list (spec_float * string)) :
  (length d <= length (dict_set key v d))%nat.
Proof.
  induction d as [|[k v'] d IH]; simpl; [lia |].
  destruct (feq k key); simpl; lia.
Qed.

Lemma dict_set_values (P : string -> Prop) (key : spec_float) (v : string)
    (d : list (spec_float * string)) :
  P v -> Forall (fun kv => P (snd kv)) d -> Forall (fun kv => P (snd kv)) (dict_set key v d).
Proof.
  intros Hv. induction 1 as [|[k v'] d Hk Hd IH]; simpl.
  - constructor; [exact Hv | constructor].
  - destruct (feq k key); constructor; auto.
Qed.

Lemma dict_set_keeps_keys (ts key : spec_float) (v : string)
    (d : list (spec_float * string)) :
  dict_get ts d <> None -> dict_get ts (dict_set key v d) <> None.
Proof.
  intros Hts. destruct (feq key ts) eqn:Hk.
  - rewrite (dict_get_feq ts key) by (apply feq_sym; exact Hk).
    rewrite dict_get_set_same by (exact (feq_refl_left _ _ Hk)). discriminate.
  - rewrite dict_get_set_other by exact Hk. exact Hts.
Qed.

Lemma dict_set_grows (key : spec_float) (line : string) (d : list (spec_float * string)) :
  re_match messageFormat line <> None -> history_grows d (dict_set key line d).
Proof.
  intros Hline. unfold history_grows. split; [| split; [| split]].
  - intros ts. apply dict_set_keeps_keys.
  - apply well_keyed_dict_set.
  - apply (dict_set_values (fun l => re_match messageFormat l <> None)). exact Hline.
  - apply dict_set_length.
Qed.

(** Whatever a line does, to the history it does nothing or one assignment
    of the line itself. *)
Lemma dispatchMessages_line_grows (line : string) (self : TPad) :
  history_grows (messages self) (messages (fst (dispatchMessages_line line self))).
Proof.
  unfold dispatchMessages_line.
  destruct (re_match messageFormat line) as [gs|] eqn:Hm; [| apply history_grows_refl].
  assert (Hline : re_match messageFormat line <> None) by congruence.
  unfold splitTPadMessage. rewrite Hm.
  destruct (re_match_messageFormat_inv _ _ Hm)
    as (c & s & b & ds & rest & _ & -> & _).
  unfold bind, lift, gets, modify, ret.
  destruct (py_int (String b EmptyString)) as [k|e]; [| apply history_grows_refl].
  destruct (py_float ds) as [ftime|e]; [| apply history_grows_refl].
  destruct (_lastTimerReset self) as [epoch|]; [| apply history_grows_refl].
  destruct (choose_node _ _ _) as [node|].
  - rewrite dispatch_messages. simpl. apply dict_set_grows. exact Hline.
  - simpl. apply dict_set_grows. exact Hline.
Qed.

Lemma for_each_keeps {S A} (R : S -> S -> Prop) (body : A -> M S unit) :
  (forall s, R s s) ->
  (forall s1 s2 s3, R s1 s2 -> R s2 s3 -> R s1 s3) ->
  (forall a s, R s (fst (body a s))) ->
  forall xs s, R s (fst (for_each body xs s)).
Proof.
  intros Hrefl Htrans Hbody xs. induction xs as [|x xs IH]; intros s; simpl.
  - apply Hrefl.
  - apply (bind_keeps R _ _ Htrans); [apply Hbody | intros _; exact IH].
Qed.

End HistoryMore.

(** X11.  Whatever a call of [dispatchMessages] reads and however it ends, by
    returning or by raising, the message history only grows: a timestamp that
    had an entry still has one, a history with at most one entry per
    timestamp stays such a history, the entries are lines that match the
    grammar if they were before, and the number of entries does not go
    down. *)
Theorem history_only_grows (env : tpad.Env) (timeout : spec_float) (self : tpad.TPad) :
  history_grows (tpad.messages self)
    (tpad.messages (fst (tpad.dispatchMessages env timeout self))).
Proof.
  revert self. unfold tpad.dispatchMessages.
  apply (bind_keeps (fun s s' => history_grows (tpad.messages s) (tpad.messages s'))).
  - intros s1 s2 s3. apply history_grows_trans.
  - intros s. apply history_grows_refl.
  - intros data.
    apply (bind_keeps (fun s s' => history_grows (tpad.messages s) (tpad.messages s'))).
    + intros s1 s2 s3. apply history_grows_trans.
    + intros s. apply history_grows_refl.
    + intros _.
      apply (for_each_keeps (fun s s' => history_grows (tpad.messages s) (tpad.messages s'))).
      * intros s. apply history_grows_refl.
      * intros s1 s2 s3. apply history_grows_trans.
      * intros line s. apply dispatchMessages_line_grows.
Qed.

(** A read that ends in the AttributeError of a button line: the photodiode
    line before it stays in the history. *)
Lemma history_only_grows_witness :
  let env := example_env ["C P 1 500"; "A P 1 20"] (tpad.float_of_Z 100) in
  let self := example_tpad [] (tpad.float_of_Z 100) in
  let first := fst (for_each tpad.dispatchMessages_line ["C P 1 500"] self) in
  tpad.dict_get (tpad.timestamp 500 (tpad.float_of_Z 100))
    (tpad.messages (fst (tpad.dispatchMessages env tpad.default_timeout first)))
  <> None.
Proof.
  intros env self first.
  destruct (history_only_grows env tpad.default_timeout first) as (Hkeys & _).
  apply Hkeys. vm_compute. discriminate.
Defined.

(** X12.  [dispatchMessages] stops at the first line that raises: the lines
    read before it have had their whole effect, the raising line has had its
    effect up to the raise, and the lines read after it are dropped, whatever
    they are. *)
Theorem dispatch_stops_at_first_fault
    (env : tpad.Env) (timeout : spec_float) (self s1 s2 : tpad.TPad)
    (pre post : list string) (bad : string) (e : exn) :
  tpad.env_getResponse env (tpad.calls self) (Some 2) (Some timeout)
    = Return (pre ++ bad :: post) ->
  tpad.env_pause env (tpad.calls self ++ [tpad.call_getResponse (Some 2) (Some timeout)])
    = Return tt ->
  for_each tpad.dispatchMessages_line pre
    (tpad.set_calls (fun h => h ++ [tpad.call_pause])
       (tpad.set_calls (fun h => h ++ [tpad.call_getResponse (Some 2) (Some timeout)])
          self))
    = (s1, Return tt) ->
  tpad.dispatchMessages_line bad s1 = (s2, Raise e) ->
  tpad.dispatchMessages env timeout self = (s2, Raise e).
Proof.
  intros Hdata Hpause Hpre Hbad.
  rewrite (dispatchMessages_read env timeout self _ Hdata Hpause).
  rewrite for_each_app, Hpre. simpl. unfold bind. rewrite Hbad. reflexivity.
Qed.

(** A button line between two photodiode lines: the first photodiode line is
    delivered, the second never is. *)
Lemma dispatch_stops_at_first_fault_witness :
  let data := ["C P 1 500"; "A P 1 20"; "C R 1 900"] in
  let env := example_env data (tpad.float_of_Z 100) in
  let self := example_tpad [] (tpad.float_of_Z 100) in
  let after := tpad.dispatchMessages env tpad.default_timeout self in
  snd after = Raise (AttributeError "parseMessage") /\
  (fun pd => length (photodiode.messages (tpad.base pd)))
    <$> (tpad.photodiodes (fst after) !! 1) = Some 1%nat.
Proof.
  intros data env self after.
  set (read := tpad.set_calls (fun h => h ++ [tpad.call_pause])
                 (tpad.set_calls
                    (fun h => h ++ [tpad.call_getResponse (Some 2)
                                      (Some tpad.default_timeout)])
                    self)).
  set (s1 := fst (for_each tpad.dispatchMessages_line ["C P 1 500"] read)).
  set (s2 := fst (tpad.dispatchMessages_line "A P 1 20" s1)).
  assert (Hpre : for_each tpad.dispatchMessages_line ["C P 1 500"] read = (s1, Return tt))
    by (vm_compute; reflexivity).
  assert (Hbad : tpad.dispatchMessages_line "A P 1 20" s1
                 = (s2, Raise (AttributeError "parseMessage")))
    by (vm_compute; reflexivity).
  pose proof (dispatch_stops_at_first_fault env tpad.default_timeout self s1 s2
                ["C P 1 500"] ["C R 1 900"] "A P 1 20" _ eq_refl eq_refl Hpre Hbad)
    as Hstop.
  unfold after. rewrite Hstop. split; [reflexivity | vm_compute; reflexivity].
Defined.

(** ** Faults outside the protected exit step *)

(** X15.  In [setMode] only a serial fault of the exit step is swallowed.
    Any other exception raised by sending the exit command or by the pause
    after it is raised to the caller, and the mode-select command is not
    sent; once the mode-select command is sent, a fault of the pause or of the
    read that follow is raised to the caller as well, serial or not. *)
Theorem setMode_unprotected_faults
    (env : tpad.Env) (mode : Z) (self : tpad.TPad) (e : exn) :
  let h0 := tpad.calls self in
  let h1 := h0 ++ [tpad.call_sendMessage "X"] in
  let h2 := h1 ++ [tpad.call_pause] in
  let h3 := h2 ++ [tpad.call_sendMessage ("MOD" +:+ pretty mode)] in
  let h4 := h3 ++ [tpad.call_pause] in
  let h5 := h4 ++ [tpad.call_getResponse None None] in
  (e <> SerialException ->
   tpad.env_sendMessage env h0 "X" = Raise e ->
   tpad.setMode env mode self = (tpad.set_calls (fun _ => h1) self, Raise e)) /\
  (e <> SerialException ->
   tpad.env_sendMessage env h0 "X" = Return tt ->
   tpad.env_pause env h1 = Raise e ->
   tpad.setMode env mode self = (tpad.set_calls (fun _ => h2) self, Raise e)) /\
  (tpad.env_sendMessage env h0 "X" = Return tt ->
   tpad.env_pause env h1 = Return tt ->
   tpad.env_sendMessage env h2 ("MOD" +:+ pretty mode) = Return tt ->
   tpad.env_pause env h3 = Raise e ->
   tpad.setMode env mode self = (tpad.set_calls (fun _ => h4) self, Raise e)) /\
  (tpad.env_sendMessage env h0 "X" = Return tt ->
   tpad.env_pause env h1 = Return tt ->
   tpad.env_sendMessage env h2 ("MOD" +:+ pretty mode) = Return tt ->
   tpad.env_pause env h3 = Return tt ->
   tpad.env_getResponse env h4 None None = Raise e ->
   tpad.setMode env mode self = (tpad.set_calls (fun _ => h5) self, Raise e)).
Proof.
  intros h0 h1 h2 h3 h4 h5.
  assert (Hcatch : e <> SerialException -> tpad.is_SerialException e = false).
  { intros Hne. unfold tpad.is_SerialException. apply bool_decide_eq_false_2. exact Hne. }
  unfold tpad.setMode, bind, try_pass, tpad.sendMessage, tpad.pause, tpad.getResponse, ret.
  fold h0. split; [| split; [| split]].
  - intros Hne Hx. rewrite Hx. simpl. rewrite (Hcatch Hne). reflexivity.
  - intros Hne Hx Hp. rewrite Hx. simpl. fold h0 h1. rewrite Hp. simpl.
    rewrite (Hcatch Hne). reflexivity.
  - intros Hx Hp Hs Hp2. rewrite Hx. simpl. fold h0 h1. rewrite Hp. simpl.
    fold h0 h1 h2. rewrite Hs. simpl. fold h0 h1 h2 h3. rewrite Hp2. reflexivity.
  - intros Hx Hp Hs Hp2 Hr. rewrite Hx. simpl. fold h0 h1. rewrite Hp. simpl.
    fold h0 h1 h2. rewrite Hs. simpl. fold h0 h1 h2 h3. rewrite Hp2. simpl.
    fold h0 h1 h2 h3 h4. rewrite Hr. reflexivity.
Qed.

Lemma setMode_unprotected_faults_witness :
  let self := example_tpad [] (tpad.float_of_Z 100) in
  snd (tpad.setMode (faulty_env "X" ValueError) 3 self) = Raise ValueError /\
  tpad.calls (fst (tpad.setMode (faulty_env "X" ValueError) 3 self))
    = tpad.calls self ++ [tpad.call_sendMessage "X"].
Proof.
  intros self.
  destruct (setMode_unprotected_faults (faulty_env "X" ValueError) 3 self ValueError)
    as (Hexit & _).
  rewrite (Hexit ltac:(discriminate) eq_refl). split; reflexivity.
Defined.

(** ** The timer reset when a call faults *)

(** X14.  [resetTimer] records the epoch after the reset command has gone out
    and before it returns to mode 3.  So when setting mode 0 or sending the
    reset command faults, the fault reaches the caller, mode 3 is not asked
    for and the old epoch stays; and once the clock has been read, the new
    epoch is in place even if the return to mode 3 faults. *)
Theorem resetTimer_fault_epoch (env : tpad.Env) (self s1 : tpad.TPad) (e : exn) :
  (tpad.setMode env 0 self = (s1, Raise e) ->
   tpad.resetTimer env self = (s1, Raise e) /\
   tpad._lastTimerReset s1 = tpad._lastTimerReset self) /\
  (tpad.setMode env 0 self = (s1, Return tt) ->
   tpad.env_sendMessage env (tpad.calls s1) "REST" = Raise e ->
   tpad.resetTimer env self
     = (tpad.set_calls (fun h => h ++ [tpad.call_sendMessage "REST"]) s1, Raise e) /\
   tpad._lastTimerReset (fst (tpad.resetTimer env self)) = tpad._lastTimerReset self) /\
  (tpad.setMode env 0 self = (s1, Return tt) ->
   tpad.env_sendMessage env (tpad.calls s1) "REST" = Return tt ->
   tpad.env_pause env (tpad.calls s1 ++ [tpad.call_sendMessage "REST"]) = Return tt ->
   tpad._lastTimerReset (fst (tpad.resetTimer env self))
     = Some (tpad.env_getTime env
               ((tpad.calls s1 ++ [tpad.call_sendMessage "REST"]) ++ [tpad.call_pause]))).
Proof.
  split; [| split].
  - intros Hmode. split.
    + unfold tpad.resetTimer. unfold bind at 1. rewrite Hmode. reflexivity.
    + pose proof (setMode_epoch env 0 self) as He. rewrite Hmode in He. exact He.
  - intros Hmode Hsend.
    assert (Hreset : tpad.resetTimer env self
              = (tpad.set_calls (fun h => h ++ [tpad.call_sendMessage "REST"]) s1, Raise e)).
    { unfold tpad.resetTimer. unfold bind at 1. rewrite Hmode.
      unfold bind at 1. unfold tpad.sendMessage at 1. rewrite Hsend. reflexivity. }
    split; [exact Hreset |]. rewrite Hreset. simpl.
    pose proof (setMode_epoch env 0 self) as He. rewrite Hmode in He. exact He.
  - intros Hmode Hsend Hpause.
    unfold tpad.resetTimer. unfold bind at 1. rewrite Hmode.
    unfold bind at 1. unfold tpad.sendMessage at 1. rewrite Hsend.
    unfold bind at 1. unfold tpad.pause at 1. simpl tpad.calls. rewrite Hpause.
    unfold bind at 1. unfold tpad.getTime at 1.
    unfold bind at 1. unfold modify at 1.
    rewrite setMode_epoch. reflexivity.
Qed.

(** A device that faults on the reset command only, after a first reset at
    100 s: the second reset fails and the epoch is still 100 s. *)
Lemma resetTimer_fault_epoch_witness :
  let self := example_tpad [] (tpad.float_of_Z 100) in
  let env := faulty_env "REST" SerialException in
  snd (tpad.resetTimer env self) = Raise SerialException /\
  tpad._lastTimerReset (fst (tpad.resetTimer env self)) = Some (tpad.float_of_Z 100).
Proof.
  intros self env.
  set (s1 := fst (tpad.setMode env 0 self)).
  assert (Hmode : tpad.setMode env 0 self = (s1, Return tt)) by (vm_compute; reflexivity).
  destruct (resetTimer_fault_epoch env self s1 SerialException) as (_ & Hrest & _).
  destruct (Hrest Hmode eq_refl) as [Hreset Hepoch].
  rewrite Hepoch. rewrite Hreset. split; [reflexivity | vm_compute; reflexivity].
Defined.

(** ** [isAwake] and [calibratePhotodiode] *)

(** X16.  With a serial device that does not fault, [isAwake] sets mode 0,
    sends ["HELP"], reads at once (there is no pause between the two), sets
    mode 3 and returns whether that read returned anything: the answer is
    true exactly when the reply is not empty, and the device is left in mode 3
    whatever the answer. *)
Theorem isAwake_answer (env : tpad.Env) (self : tpad.TPad) (resp : list string) :
  reliable env ->
  let asked :=
    tpad.calls self ++
      [tpad.call_sendMessage "X"; tpad.call_pause;
       tpad.call_sendMessage "MOD0"; tpad.call_pause;
       tpad.call_getResponse None None;
       tpad.call_sendMessage "HELP"] in
  tpad.env_getResponse env asked None None = Return resp ->
  tpad.isAwake env self =
    (tpad.set_calls
       (fun _ => asked ++
          [tpad.call_getResponse None None;
           tpad.call_sendMessage "X"; tpad.call_pause;
           tpad.call_sendMessage "MOD3"; tpad.call_pause;
           tpad.call_getResponse None None]) self,
     Return (tpad.truthy resp)) /\
  (tpad.truthy resp = true <-> resp <> []).
Proof.
  intros Hrel asked Hresp. split.
  - unfold tpad.isAwake. unfold bind at 1.
    rewrite (setMode_reliable env 0 self Hrel).
    unfold bind at 1. unfold tpad.sendMessage at 1.
    destruct Hrel as (Hsend & Hpause & Hrecv). rewrite Hsend.
    unfold bind at 1. unfold tpad.getResponse at 1.
    match goal with
    | |- context [tpad.env_getResponse env ?h None None] =>
        replace h with asked
          by (unfold asked, tpad.set_calls; simpl; rewrite <- !app_assoc; reflexivity)
    end.
    rewrite Hresp. unfold bind at 1.
    rewrite (setMode_reliable env 3 _ (conj Hsend (conj Hpause Hrecv))).
    unfold ret, tpad.set_calls, asked. simpl. rewrite <- !app_assoc. reflexivity.
  - destruct resp; simpl; split; congruence.
Qed.

(** A device that answers HELP with one line, and one that stays silent. *)
Lemma isAwake_answer_witness :
  let self := example_tpad [] (tpad.float_of_Z 100) in
  snd (tpad.isAwake help_env self) = Return true /\
  snd (tpad.isAwake (example_env [] (tpad.float_of_Z 100)) self) = Return false.
Proof.
  intros self. split.
  - destruct (isAwake_answer help_env self ["BBTK TPad"]) as [Hawake _].
    + repeat split. intros h length timeout. eexists. reflexivity.
    + vm_compute. reflexivity.
    + rewrite Hawake. reflexivity.
  - destruct (isAwake_answer (example_env [] (tpad.float_of_Z 100)) self []) as [Hawake _].
    + repeat split. intros h length timeout. eexists. reflexivity.
    + reflexivity.
    + rewrite Hawake. reflexivity.
Defined.

(** X17.  With a serial device that does not fault, [calibratePhotodiode]
    sets mode 0, sends the threshold command ["AAO1 <level>"] and then
    ["AAO2 <level>"], reads once and sets mode 3.  It does not touch the
    handlers: the threshold each photodiode handler mirrors, and hands to the
    responses it decodes, is the one from before the calibration. *)
Theorem calibratePhotodiode_commands (env : tpad.Env) (level : Z) (self : tpad.TPad) :
  reliable env ->
  let after := fst (tpad.calibratePhotodiode env level self) in
  snd (tpad.calibratePhotodiode env level self) = Return tt /\
  tpad.calls after =
    tpad.calls self ++
      [tpad.call_sendMessage "X"; tpad.call_pause;
       tpad.call_sendMessage "MOD0"; tpad.call_pause;
       tpad.call_getResponse None None;
       tpad.call_sendMessage ("AAO1 " +:+ pretty level);
       tpad.call_sendMessage ("AAO2 " +:+ pretty level);
       tpad.call_getResponse None None;
       tpad.call_sendMessage "X"; tpad.call_pause;
       tpad.call_sendMessage "MOD3"; tpad.call_pause;
       tpad.call_getResponse None None] /\
  (forall key pd parts,
     tpad.photodiodes self !! key = Some pd ->
     tpad.photodiodes after !! key = Some pd /\
     photodiode.threshold (tpad.parseMessage pd parts)
       = photodiode._threshold (tpad.base pd)).
Proof.
  intros Hrel after.
  assert (Hrun : tpad.calibratePhotodiode env level self =
    (tpad.set_calls (fun h => h ++
       [tpad.call_sendMessage "X"; tpad.call_pause;
        tpad.call_sendMessage "MOD0"; tpad.call_pause;
        tpad.call_getResponse None None;
        tpad.call_sendMessage ("AAO1 " +:+ pretty level);
        tpad.call_sendMessage ("AAO2 " +:+ pretty level);
        tpad.call_getResponse None None;
        tpad.call_sendMessage "X"; tpad.call_pause;
        tpad.call_sendMessage "MOD3"; tpad.call_pause;
        tpad.call_getResponse None None]) self, Return tt)).
  { unfold tpad.calibratePhotodiode. unfold bind at 1.
    rewrite (setMode_reliable env 0 self Hrel).
    destruct Hrel as (Hsend & Hpause & Hrecv).
    unfold bind at 1. unfold tpad.sendMessage at 1. rewrite Hsend.
    unfold bind at 1. unfold tpad.sendMessage at 1. rewrite Hsend.
    unfold bind at 1. unfold tpad.getResponse at 1.
    match goal with
    | |- context [tpad.env_getResponse env ?h None None] =>
        destruct (Hrecv h None None) as [data Hd]; rewrite Hd
    end.
    rewrite (setMode_reliable env 3 _ (conj Hsend (conj Hpause Hrecv))).
    unfold tpad.set_calls. simpl. rewrite <- !app_assoc. reflexivity. }
  unfold after. rewrite Hrun. split; [reflexivity |]. split; [reflexivity |].
  intros key pd [[[channel state] button] time] Hpd. split; [exact Hpd | reflexivity].
Qed.

Lemma calibratePhotodiode_commands_witness :
  let env := example_env [] (tpad.float_of_Z 100) in
  let self := example_tpad [] (tpad.float_of_Z 100) in
  snd (tpad.calibratePhotodiode env 127 self) = Return tt /\
  tpad.photodiodes (fst (tpad.calibratePhotodiode env 127 self)) !! 1
    = Some (tpad.TPadPhotodiode__init__ 1).
Proof.
  intros env self.
  assert (Hrel : reliable env).
  { repeat split. intros h length timeout. eexists. reflexivity. }
  destruct (calibratePhotodiode_commands env 127 self Hrel) as (Hret & _ & Hpd).
  split; [exact Hret |].
  destruct (Hpd 1 (tpad.TPadPhotodiode__init__ 1) ("C", "P", 1, tpad.float_of_Z 0))
    as [Hsame _]; [vm_compute; reflexivity | exact Hsame].
Defined.

(** ** Port detection *)

Section PortFacts.

Import tpad.

Lemma str_length_app (s1 s2 : string) :
  String.length (s1 +:+ s2) = (String.length s1 + String.length s2)%nat.
Proof. induction s1 as [|a s1 IH]; simpl; [reflexivity | rewrite IH; reflexivity]. Qed.

Lemma str_app_assoc (s1 s2 s3 : string) : (s1 +:+ s2) +:+ s3 = s1 +:+ s2 +:+ s3.
Proof.
  induction s1 as [|a s1 IH]; [reflexivity |].
  change (String a ((s1 +:+ s2) +:+ s3) = String a (s1 +:+ s2 +:+ s3)). f_equal. exact IH.
Qed.

Lemma str_drop_app (s1 s2 : string) : str_drop (String.length s1) (s1 +:+ s2) = s2.
Proof. induction s1 as [|a s1 IH]; simpl; [reflexivity | exact IH]. Qed.

Lemma str_take_app (s1 s2 : string) : str_take (String.length s1) (s1 +:+ s2) = s1.
Proof. induction s1 as [|a s1 IH]; simpl; [reflexivity | rewrite IH; reflexivity]. Qed.

Lemma str_take_drop (n : nat) (s : string) : str_take n s +:+ str_drop n s = s.
Proof.
  revert s. induction n as [|n IH]; intros s; simpl; [reflexivity |].
  destruct s as [|a s]; [reflexivity |].
  change (String a (str_take n s +:+ str_drop n s) = String a s). f_equal. apply IH.
Qed.

Lemma str_take_length (n : nat) (s : string) :
  (n <= String.length s)%nat -> String.length (str_take n s) = n.
Proof.
  revert s. induction n as [|n IH]; intros s Hn; simpl; [reflexivity |].
  destruct s as [|a s]; simpl in *; [lia | rewrite IH; [reflexivity | lia]].
Qed.

Lemma str_drop_drop (n m : nat) (s : string) :
  str_drop n (str_drop m s) = str_drop (m + n) s.
Proof.
  revert s. induction m as [|m IH]; intros s; simpl; [reflexivity |].
  destruct s as [|a s]; [destruct n; reflexivity | apply IH].
Qed.

Lemma str_drop_length (n : nat) (s : string) :
  String.length (str_drop n s) = (String.length s - n)%nat.
Proof.
  revert s. induction n as [|n IH]; intros s; simpl; [lia |].
  destruct s as [|a s]; simpl; [reflexivity | apply IH].
Qed.

Lemma prefix_app (sub s : string) :
  String.prefix sub s = true -> s = sub +:+ str_drop (String.length sub) s.
Proof.
  revert s. induction sub as [|a sub IH]; intros s H; simpl; [destruct s; reflexivity |].
  destruct s as [|b s]; simpl in H; [discriminate |].
  destruct (ascii_dec a b) as [-> | Hne]; [| discriminate].
  change (String b s = String b (sub +:+ str_drop (String.length sub) s)).
  f_equal. apply IH. exact H.
Qed.

(** Where [find_from] finds [sub], there it is. *)
Lemma find_from_Some (sub s : string) (i j : nat) :
  find_from sub s i = Some j ->
  (i <= j)%nat /\ (j - i <= String.length s)%nat /\
  String.prefix sub (str_drop (j - i) s) = true.
Proof.
  revert i. induction s as [|a s IH]; intros i; cbn [find_from].
  - destruct (String.prefix sub EmptyString) eqn:Hp; [| discriminate].
    intros H. injection H as <-. rewrite Nat.sub_diag. cbn [str_drop String.length].
    split; [lia | split; [lia | exact Hp]].
  - destruct (String.prefix sub (String a s)) eqn:Hp.
    + intros H. injection H as <-. rewrite Nat.sub_diag. cbn [str_drop String.length].
      split; [lia | split; [lia | exact Hp]].
    + intros H. destruct (IH _ H) as (Hle & Hlen & Hpre).
      replace (j - i)%nat with (S (j - S i)) by lia. cbn [str_drop String.length].
      split; [lia | split; [lia | exact Hpre]].
Qed.

(** A closing bracket is found right after a run of numeric characters. *)
Lemma find_from_bracket (num rest : string) (i : nat) :
  all_numeric num = true ->
  find_from ")" (num +:+ ")" +:+ rest) i = Some (i + String.length num)%nat.
Proof.
  revert i. induction num as [|a num IH]; intros i Hnum.
  - cbn [String.length]. rewrite Nat.add_0_r. destruct rest; reflexivity.
  - cbn [all_numeric] in Hnum. apply andb_true_iff in Hnum as [Ha Hnum].
    change (String a num +:+ ")" +:+ rest) with (String a (num +:+ ")" +:+ rest)).
    cbn [find_from String.prefix String.length].
    destruct (ascii_dec ")" a) as [<- | Hne]; [discriminate Ha |].
    rewrite (IH (S i) Hnum). apply (f_equal Some). lia.
Qed.

Lemma isnumeric_all (num : string) : isnumeric num = true -> all_numeric num = true.
Proof. destruct num; [discriminate | exact id]. Qed.

(** The profiles before one that lacks no manufacturer are passed over
    without a fault. *)
Lemma find_FTDI_app (l1 l2 : list (gmap string string)) acc :
  Forall (fun prf => is_Some (prf !! "Manufacturer Name")) l1 ->
  exists acc', find_FTDI (l1 ++ l2) acc = find_FTDI l2 acc' /\
    (acc' = acc \/ exists prf, acc' = Some prf /\ prf ∈ l1 /\
                               prf !! "Manufacturer Name" = Some "FTDI").
Proof.
  intros Hall. revert acc. induction Hall as [|prf l1 [m Hm] Hall IH]; intros acc; simpl.
  - exists acc. split; [reflexivity | left; reflexivity].
  - rewrite Hm.
    destruct (IH (if String.eqb m "FTDI" then Some prf else acc)) as (acc' & Heq & Hacc).
    exists acc'. split; [exact Heq |].
    destruct Hacc as [-> | (p & -> & Hin & Hp)].
    + destruct (String.eqb m "FTDI") eqn:Hf; [| left; reflexivity].
      apply String.eqb_eq in Hf as ->. right. exists prf.
      split; [reflexivity | split; [apply list_elem_of_here | exact Hm]].
    + right. exists p. split; [reflexivity | split; [apply list_elem_of_further, Hin | exact Hp]].
Qed.

(** Profiles of other manufacturers leave the choice as it is. *)
Lemma find_FTDI_others (l : list (gmap string string)) acc :
  Forall (fun prf => exists m, prf !! "Manufacturer Name" = Some m /\ m <> "FTDI") l ->
  find_FTDI l acc = Return acc.
Proof.
  intros Hall. revert acc. induction Hall as [|prf l (m & Hm & Hne) Hall IH]; intros acc; simpl.
  - reflexivity.
  - rewrite Hm. apply String.eqb_neq in Hne. rewrite Hne. apply IH.
Qed.

(** The last FTDI profile is the one chosen. *)
Lemma find_FTDI_last (before after : list (gmap string string)) prf acc :
  Forall (fun prf => is_Some (prf !! "Manufacturer Name")) before ->
  prf !! "Manufacturer Name" = Some "FTDI" ->
  Forall (fun prf => exists m, prf !! "Manufacturer Name" = Some m /\ m <> "FTDI") after ->
  find_FTDI (before ++ prf :: after) acc = Return (Some prf).
Proof.
  intros Hbefore Hprf Hafter.
  destruct (find_FTDI_app before (prf :: after) acc Hbefore) as (acc' & -> & _).
  simpl. rewrite Hprf. simpl. apply find_FTDI_others, Hafter.
Qed.

(** A profile that [find_FTDI] returns was either given to it or is one of
    the list that names FTDI. *)
Lemma find_FTDI_chosen (l : list (gmap string string)) acc prf :
  find_FTDI l acc = Return (Some prf) ->
  acc = Some prf \/ (prf ∈ l /\ prf !! "Manufacturer Name" = Some "FTDI").
Proof.
  revert acc. induction l as [|p l IH]; intros acc; simpl.
  - intros H. injection H as ->. left. reflexivity.
  - destruct (p !! "Manufacturer Name") as [m|] eqn:Hm; [| discriminate].
    intros H. destruct (IH _ H) as [Hacc | [Hin Hp]].
    + destruct (String.eqb m "FTDI") eqn:Hf; [| left; exact Hacc].
      apply String.eqb_eq in Hf as ->. injection Hacc as <-.
      right. split; [apply list_elem_of_here | exact Hm].
    + right. split; [apply list_elem_of_further, Hin | exact Hp].
Qed.

(** The value of [desc.find("COM") + 3] is at least 2. *)
Lemma start_at_least_2 (desc : string) : 2 <= str_find "COM" desc 0 + 3.
Proof.
  unfold str_find. destruct (String.length desc <? 0)%nat; [lia |].
  destruct (find_from "COM" (str_drop 0 desc) 0); lia.
Qed.

(** The port read off a description whose characters from
    [desc.find("COM") + 3] on are a number and a closing bracket. *)
Lemma description_port (desc pre num rest : string) :
  desc = pre +:+ num +:+ ")" +:+ rest ->
  str_find "COM" desc 0 + 3 = Z.of_nat (String.length pre) ->
  isnumeric num = true ->
  (let start := str_find "COM" desc 0 + 3 in
   let stop := str_find ")" desc (Z.to_nat start) in
   if bool_decide (start = -1 \/ stop = -1) then ConnectionError
   else
     let num := str_slice desc (Z.to_nat start) (Z.to_nat stop) in
     if isnumeric num then Port ("COM" +:+ num) else ConnectionError)
  = Port ("COM" +:+ num).
Proof.
  intros Hdesc Hstart Hnum. cbv zeta. rewrite Hstart, Nat2Z.id.
  assert (Hstop : str_find ")" desc (String.length pre)
                  = Z.of_nat (String.length pre + String.length num)).
  { unfold str_find. subst desc. rewrite str_length_app.
    destruct (Nat.ltb_spec (String.length pre + String.length (num +:+ ")" +:+ rest))
                (String.length pre)) as [Hlt | _]; [lia |].
    rewrite str_drop_app, find_from_bracket by (apply isnumeric_all, Hnum). reflexivity. }
  rewrite Hstop, Nat2Z.id.
  rewrite bool_decide_eq_false_2 by lia.
  unfold str_slice.
  replace (String.length pre + String.length num - String.length pre)%nat
    with (String.length num) by lia.
  subst desc. rewrite str_drop_app, str_take_app, Hnum. reflexivity.
Qed.

End PortFacts.

(** X18. [_detectComPort] answers with the port of the last FTDI profile:
    when the profiles all name a manufacturer, [prf] is the last that names
    FTDI, and its description reads [pre], "COM", a numeric string [num], a
    closing bracket and [rest], with no "COM" earlier in it, the port is
    "COM" followed by [num]. *)
Theorem detectComPort_last_FTDI
    (before after : list (gmap string string)) (prf : gmap string string)
    (pre num rest : string) :
  Forall (fun p => is_Some (p !! "Manufacturer Name")) before ->
  prf !! "Manufacturer Name" = Some "FTDI" ->
  Forall (fun p => exists m, p !! "Manufacturer Name" = Some m /\ m <> "FTDI") after ->
  prf !! "Device Description" = Some (pre +:+ "COM" +:+ num +:+ ")" +:+ rest) ->
  tpad.str_find "COM" (pre +:+ "COM" +:+ num +:+ ")" +:+ rest) 0
    = Z.of_nat (String.length pre) ->
  tpad.isnumeric num = true ->
  tpad._detectComPort (before ++ prf :: after) = tpad.Port ("COM" +:+ num).
Proof.
  intros Hbefore Hprf Hafter Hdesc Hfirst Hnum.
  unfold tpad._detectComPort.
  rewrite (find_FTDI_last before after prf None Hbefore Hprf Hafter), Hdesc.
  apply (description_port _ (pre +:+ "COM") num rest).
  - symmetry. apply str_app_assoc.
  - rewrite Hfirst, str_length_app. simpl. lia.
  - exact Hnum.
Qed.

Lemma detectComPort_last_FTDI_witness :
  tpad._detectComPort
    ([port_profile "FTDI" "USB Serial Port (COM3)";
      port_profile "Intel" "Intel(R) Active Management Technology - SOL (COM7)"]
     ++ port_profile "FTDI" "USB Serial Port (COM12)"
     :: [port_profile "Microsoft" "Standard Serial over Bluetooth link (COM5)"])
  = tpad.Port ("COM" +:+ "12").
Proof.
  apply (detectComPort_last_FTDI _ _ _ "USB Serial Port (" "12" "").
  - repeat constructor; eexists; vm_compute; reflexivity.
  - vm_compute; reflexivity.
  - repeat constructor; eexists; (split; [vm_compute; reflexivity | discriminate]).
  - vm_compute; reflexivity.
  - vm_compute; reflexivity.
  - reflexivity.
Defined.

(** X19. The test for a missing "COM" never fires on the start index: for a
    description without "COM", [desc.find("COM") + 3] is 2, so that a
    description of two characters, a numeric string [num], a closing bracket
    and [rest] still yields the port "COM" followed by [num]; and in no case
    is the start index -1. *)
Theorem detectComPort_without_COM
    (profiles : list (gmap string string)) (prf : gmap string string)
    (a b : ascii) (num rest : string) :
  tpad.find_FTDI profiles None = Return (Some prf) ->
  prf !! "Device Description" = Some (String a (String b (num +:+ ")" +:+ rest))) ->
  tpad.str_find "COM" (String a (String b (num +:+ ")" +:+ rest))) 0 = -1 ->
  tpad.isnumeric num = true ->
  tpad._detectComPort profiles = tpad.Port ("COM" +:+ num) /\
  forall desc, tpad.str_find "COM" desc 0 + 3 <> -1.
Proof.
  intros Hfind Hdesc Hnone Hnum. split.
  - unfold tpad._detectComPort. rewrite Hfind, Hdesc.
    apply (description_port _ (String a (String b "")) num rest).
    + reflexivity.
    + rewrite Hnone. reflexivity.
    + exact Hnum.
  - intros desc. pose proof (start_at_least_2 desc). lia.
Qed.

Lemma detectComPort_without_COM_witness :
  tpad._detectComPort [port_profile "FTDI" "tt12) serial"] = tpad.Port ("COM" +:+ "12") /\
  forall desc, tpad.str_find "COM" desc 0 + 3 <> -1.
Proof.
  apply (detectComPort_without_COM _ (port_profile "FTDI" "tt12) serial") "t" "t" "12" " serial").
  - vm_compute; reflexivity.
  - vm_compute; reflexivity.
  - vm_compute; reflexivity.
  - reflexivity.
Defined.

(** X20. How [_detectComPort] fails: with no FTDI profile among profiles
    that all name a manufacturer (the empty list included) it raises its
    ConnectionError; a profile without the key 'Manufacturer Name' makes it
    raise KeyError whatever the profiles after it are, also when an FTDI
    profile came before; and an FTDI profile chosen without the key
    'Device Description' raises KeyError as well. *)
Theorem detectComPort_failures
    (before after : list (gmap string string)) (prf : gmap string string) :
  Forall (fun p => is_Some (p !! "Manufacturer Name")) before ->
  (Forall (fun p => exists m, p !! "Manufacturer Name" = Some m /\ m <> "FTDI") before ->
   tpad._detectComPort before = tpad.ConnectionError) /\
  (prf !! "Manufacturer Name" = None ->
   tpad._detectComPort (before ++ prf :: after)
   = tpad.Raised (KeyError (VStr "Manufacturer Name"))) /\
  (prf !! "Manufacturer Name" = Some "FTDI" ->
   prf !! "Device Description" = None ->
   Forall (fun p => exists m, p !! "Manufacturer Name" = Some m /\ m <> "FTDI") after ->
   tpad._detectComPort (before ++ prf :: after)
   = tpad.Raised (KeyError (VStr "Device Description"))).
Proof.
  intros Hbefore. split; [| split].
  - intros Hothers. unfold tpad._detectComPort.
    rewrite (find_FTDI_others before None Hothers). reflexivity.
  - intros Hno. unfold tpad._detectComPort.
    destruct (find_FTDI_app before (prf :: after) None Hbefore) as (acc' & -> & _).
    simpl. rewrite Hno. reflexivity.
  - intros Hprf Hdesc Hafter. unfold tpad._detectComPort.
    rewrite (find_FTDI_last before after prf None Hbefore Hprf Hafter), Hdesc. reflexivity.
Qed.

Lemma detectComPort_failures_witness :
  tpad._detectComPort
    ([port_profile "FTDI" "USB Serial Port (COM3)"]
     ++ {[ "Device Description" := "USB Serial Port (COM4)" ]}
     :: [port_profile "FTDI" "USB Serial Port (COM5)"])
  = tpad.Raised (KeyError (VStr "Manufacturer Name")).
Proof.
  refine (proj1 (proj2 (detectComPort_failures
    [port_profile "FTDI" "USB Serial Port (COM3)"]
    [port_profile "FTDI" "USB Serial Port (COM5)"]
    {[ "Device Description" := "USB Serial Port (COM4)" ]} _)) _).
  - repeat constructor; eexists; vm_compute; reflexivity.
  - vm_compute; reflexivity.
Defined.

(** X21. Whatever port [_detectComPort] returns is "COM" followed by a
    non-empty numeric string [num] that, in the description of one of the
    given profiles whose manufacturer is FTDI, stands at index 2 or later and
    immediately before a closing bracket. *)
Theorem detectComPort_port_shape (profiles : list (gmap string string)) (port : string) :
  tpad._detectComPort profiles = tpad.Port port ->
  exists prf pre num rest,
    prf ∈ profiles /\
    prf !! "Manufacturer Name" = Some "FTDI" /\
    prf !! "Device Description" = Some (pre +:+ num +:+ ")" +:+ rest) /\
    (2 <= String.length pre)%nat /\
    tpad.isnumeric num = true /\
    port = "COM" +:+ num.
Proof.
  unfold tpad._detectComPort.
  destruct (tpad.find_FTDI profiles None) as [[prf|]|e] eqn:Hfind; try discriminate.
  destruct (find_FTDI_chosen _ _ _ Hfind) as [Habs | [Hin Hprf]]; [discriminate |].
  destruct (prf !! "Device Description") as [desc|] eqn:Hdesc; [| discriminate].
  cbv zeta.
  pose proof (start_at_least_2 desc) as Hge.
  set (start := Z.to_nat (tpad.str_find "COM" desc 0 + 3)) in *.
  destruct (bool_decide (tpad.str_find "COM" desc 0 + 3 = -1 \/
                         tpad.str_find ")" desc start = -1)) eqn:Hdec; [discriminate |].
  apply bool_decide_eq_false in Hdec.
  destruct (tpad.isnumeric (tpad.str_slice desc start
              (Z.to_nat (tpad.str_find ")" desc start)))) eqn:Hnum; [| discriminate].
  intros Hport. injection Hport as <-.
  unfold tpad.str_find in Hdec, Hnum |- * at 1.
  destruct (Nat.ltb_spec (String.length desc) start) as [Hlt | Hle];
    [exfalso; apply Hdec; right; reflexivity |].
  destruct (tpad.find_from ")" (tpad.str_drop start desc) start) as [j|] eqn:Hj;
    [| exfalso; apply Hdec; right; reflexivity].
  rewrite Nat2Z.id in Hnum |- *.
  destruct (find_from_Some _ _ _ _ Hj) as (Hij & Hlen & Hpre).
  apply prefix_app in Hpre. rewrite !str_drop_drop in Hpre.
  change (String.length ")") with 1%nat in Hpre.
  exists prf, (tpad.str_take start desc),
    (tpad.str_slice desc start j),
    (tpad.str_drop (start + (j - start) + 1) desc).
  split; [exact Hin |]. split; [exact Hprf |].
  split.
  - rewrite Hdesc. f_equal. unfold tpad.str_slice.
    rewrite <- (str_take_drop start desc) at 1. f_equal.
    rewrite <- (str_take_drop (j - start) (tpad.str_drop start desc)) at 1. f_equal.
    rewrite str_drop_drop. exact Hpre.
  - split; [| split; [exact Hnum | reflexivity]].
    rewrite str_take_length by exact Hle. subst start. lia.
Qed.

Lemma detectComPort_port_shape_witness :
  exists prf pre num rest,
    prf ∈ [port_profile "FTDI" "USB Serial Port (COM3)"] /\
    prf !! "Manufacturer Name" = Some "FTDI" /\
    prf !! "Device Description" = Some (pre +:+ num +:+ ")" +:+ rest) /\
    (2 <= String.length pre)%nat /\
    tpad.isnumeric num = true /\
    "COM3" = "COM" +:+ num.
Proof.
  apply (detectComPort_port_shape [port_profile "FTDI" "USB Serial Port (COM3)"] "COM3").
  vm_compute; reflexivity.
Defined.
